(** * TokaMaker bootstrap / dynamo iteration engine

    A shallow embedding of the numerical operators and driver loops of
    [OpenFUSIONToolkit/TokaMaker/_core.py]:

    - [ffprime_from_jtor_pprime], [jtor_from_ffprime_pprime]
    - [cross_section_surf_int], [rescale_Jtor]
    - [solve_for_psi_crossing]
    - the [while n <= max_iterations] loops of [solve_with_bootstrap] and
      [basic_dynamo_w_bootstrap], the initialisation ahead of the first
      and the removal of the pedestal samples
    - [create_prof_file], [set_profiles], [load_profiles]
    - the sampling grid of [get_q], [sauter_fc] and [get_profiles]
    - [make_smooth], [error_reason]

    Samples are numpy [float64] values.  They are modelled as exact
    rationals extended with the three non-finite values numpy produces
    (rounding and overflow of finite values are not modelled).  Python
    exceptions are modelled by an error monad. *)

From Stdlib Require Import String QArith Qabs ZArith List Bool Lia Lqa Arith.
Import ListNotations.

Local Open Scope Q_scope.

(** ** Python exceptions *)

Inductive exn : Type :=
| ValueError
| IndexError
| AssertionError
| TypeError
| ZeroDivisionError.

Inductive result (A : Type) : Type :=
| Ret (a : A)
| Raise (e : exn).

Arguments Ret {A} a.
Arguments Raise {A} e.

Definition bind {A B : Type} (m : result A) (k : A -> result B) : result B :=
  match m with
  | Ret a => k a
  | Raise e => Raise e
  end.

(** [assert b] *)
Definition py_assert (b : bool) : result unit :=
  if b then Ret tt else Raise AssertionError.

Declare Scope py_scope.
Delimit Scope py_scope with py.
Notation "x <- m ;; k" := (bind m (fun x => k))
  (at level 61, m at next level, right associativity) : py_scope.
Notation "m ;;; k" := (bind m (fun _ => k))
  (at level 61, right associativity) : py_scope.
Local Open Scope py_scope.

(** ** numpy float64 samples *)

Module Float64.

Inductive float64 : Type :=
| Fin (q : Q)
| PInf
| NInf
| NaN.

Definition Qltb (x y : Q) : bool := negb (Qle_bool y x).

Definition is_finite (x : float64) : bool :=
  match x with Fin _ => true | _ => false end.


(** The infinity with the sign of [q]; zero counts as positive, the sign
    bit of a float zero is not represented. *)
Definition inf_of_sign (q : Q) : float64 :=
  if Qltb q 0 then NInf else PInf.

Definition fopp (x : float64) : float64 :=
  match x with
  | Fin q => Fin (- q)
  | PInf => NInf
  | NInf => PInf
  | NaN => NaN
  end.

Definition fabs (x : float64) : float64 :=
  match x with
  | Fin q => Fin (Qabs q)
  | PInf | NInf => PInf
  | NaN => NaN
  end.

Definition fadd (x y : float64) : float64 :=
  match x, y with
  | NaN, _ | _, NaN => NaN
  | Fin a, Fin b => Fin (a + b)
  | PInf, NInf | NInf, PInf => NaN
  | PInf, _ | _, PInf => PInf
  | NInf, _ | _, NInf => NInf
  end.

Definition fsub (x y : float64) : float64 := fadd x (fopp y).

Definition fmul (x y : float64) : float64 :=
  match x, y with
  | NaN, _ | _, NaN => NaN
  | Fin a, Fin b => Fin (a * b)
  | Fin a, PInf | PInf, Fin a =>
      if Qeq_bool a 0 then NaN else inf_of_sign a
  | Fin a, NInf | NInf, Fin a =>
      if Qeq_bool a 0 then NaN else fopp (inf_of_sign a)
  | PInf, PInf | NInf, NInf => PInf
  | PInf, NInf | NInf, PInf => NInf
  end.

(** Division of numpy scalars and arrays never raises: a zero divisor
    gives an infinity, or not-a-number for [0/0], with a warning. *)
Definition fdiv (x y : float64) : float64 :=
  match x, y with
  | NaN, _ | _, NaN => NaN
  | Fin a, Fin b =>
      if Qeq_bool b 0
      then (if Qeq_bool a 0 then NaN else inf_of_sign a)
      else Fin (a / b)
  | Fin _, PInf | Fin _, NInf => Fin 0
  | PInf, Fin b => inf_of_sign b
  | NInf, Fin b => fopp (inf_of_sign b)
  | _, _ => NaN
  end.

(** [x < y]; every comparison with not-a-number is false. *)
Definition fltb (x y : float64) : bool :=
  match x, y with
  | NaN, _ | _, NaN => false
  | Fin a, Fin b => Qltb a b
  | NInf, NInf => false
  | NInf, _ => true
  | _, PInf => match x with PInf => false | _ => true end
  | _, _ => false
  end.

Definition fgtb (x y : float64) : bool := fltb y x.

Definition feqb (x y : float64) : bool :=
  match x, y with
  | Fin a, Fin b => Qeq_bool a b
  | PInf, PInf | NInf, NInf => true
  | _, _ => false
  end.

(** Largest finite double, [numpy.finfo(float64).max]. *)
Definition DBL_MAX : Q := inject_Z (2 ^ 1024 - 2 ^ 971).

(** [numpy.nan_to_num] on one sample, with its default arguments. *)
Definition nan_to_num1 (x : float64) : float64 :=
  match x with
  | Fin q => Fin q
  | PInf => Fin DBL_MAX
  | NInf => Fin (- DBL_MAX)
  | NaN => Fin 0
  end.

End Float64.
Export Float64.

Declare Scope f64_scope.
Delimit Scope f64_scope with f64.
Infix "+" := fadd : f64_scope.
Infix "-" := fsub : f64_scope.
Infix "*" := fmul : f64_scope.
Infix "/" := fdiv : f64_scope.
Notation "- x" := (fopp x) : f64_scope.
Infix "<?" := fltb (at level 70) : f64_scope.
Infix ">?" := fgtb (at level 70) : f64_scope.
Infix "=?" := feqb (at level 70) : f64_scope.

(** ** numpy one-dimensional arrays *)

Module Ndarray.

Definition ndarray : Type := list float64.

Definition of_Q (l : list Q) : ndarray := map Fin l.

Fixpoint zip_with (op : float64 -> float64 -> float64)
         (xs ys : ndarray) : ndarray :=
  match xs, ys with
  | x :: xs', y :: ys' => op x y :: zip_with op xs' ys'
  | _, _ => []
  end.

(** Element-wise binary operation on two arrays.  Shapes must agree,
    except that a one-element array is stretched over the other one. *)
Definition broadcast (op : float64 -> float64 -> float64)
           (xs ys : ndarray) : result ndarray :=
  if (length xs =? length ys)%nat then Ret (zip_with op xs ys)
  else match xs, ys with
       | [x], _ => Ret (map (op x) ys)
       | _, [y] => Ret (map (fun x => op x y) xs)
       | _, _ => Raise ValueError
       end.

(** [a[i]] for a non-negative index. *)
Definition getitem (a : ndarray) (i : nat) : result float64 :=
  match nth_error a i with
  | Some x => Ret x
  | None => Raise IndexError
  end.

(** [a[-1]]. *)
Definition getlast (a : ndarray) : result float64 :=
  match a with
  | [] => Raise IndexError
  | x :: t => Ret (last t x)
  end.

(** [a[-1] = v]. *)
Definition setlast (a : ndarray) (v : float64) : result ndarray :=
  match a with
  | [] => Raise IndexError
  | _ :: _ => Ret (removelast a ++ [v])
  end.

Definition nan_to_num (a : ndarray) : ndarray := map nan_to_num1 a.

(** numpy orders not-a-number below everything in [argmin]. *)
Definition np_less (x best : float64) : bool :=
  match best with
  | NaN => false
  | _ => match x with NaN => true | _ => (x <? best)%f64 end
  end.

Fixpoint argmin_from (best : float64) (ibest i : nat) (l : ndarray) : nat :=
  match l with
  | [] => ibest
  | x :: t =>
      if np_less x best then argmin_from x i (S i) t
      else argmin_from best ibest (S i) t
  end.

(** [numpy.argmin]: index of the first occurrence of the minimum. *)
Definition argmin (a : ndarray) : result nat :=
  match a with
  | [] => Raise ValueError
  | x :: t => Ret (argmin_from x 0%nat 1%nat t)
  end.

Fixpoint min_from (m : float64) (l : ndarray) : float64 :=
  match l with
  | [] => m
  | x :: t => min_from (if (x <? m)%f64 then x else m) t
  end.

(** Python's builtin [min] iterating over an array. *)
Definition py_min (a : ndarray) : result float64 :=
  match a with
  | [] => Raise ValueError
  | x :: t => Ret (min_from x t)
  end.

Fixpoint max_from (m : float64) (l : ndarray) : float64 :=
  match l with
  | [] => m
  | x :: t => max_from (if (x >? m)%f64 then x else m) t
  end.

(** Python's builtin [max]. *)
Definition py_max (a : ndarray) : result float64 :=
  match a with
  | [] => Raise ValueError
  | x :: t => Ret (max_from x t)
  end.

End Ndarray.
Export Ndarray.

(** ** Flux-function conversion *)

Section Conversion.

(** [mu0] is imported from the toolkit's [util] module; a double, hence
    a rational. *)
Variable mu0 : Q.

(** [ffprime = (jtor - R_avg * (-pprime)) * (mu0 / one_over_R_avg)] *)
Definition ffprime_from_jtor_pprime
           (jtor pprime R_avg one_over_R_avg : ndarray) : result ndarray :=
  t1 <- broadcast fmul R_avg (map fopp pprime) ;;
  t2 <- broadcast fsub jtor t1 ;;
  broadcast fmul t2 (map (fdiv (Fin mu0)) one_over_R_avg).

(** [jtor = R_avg * (-pprime) + one_over_R_avg*ffprime/mu0] *)
Definition jtor_from_ffprime_pprime
           (ffprime pprime R_avg one_over_R_avg : ndarray) : result ndarray :=
  t1 <- broadcast fmul R_avg (map fopp pprime) ;;
  t2 <- broadcast fmul one_over_R_avg ffprime ;;
  broadcast fadd t1 (map (fun x => (x / Fin mu0)%f64) t2).

(** One sample of the written formula. *)
Definition ffprime_sample (j p R o : Q) : Q := (j - R * (- p)) * (mu0 / o).

Definition jtor_sample (ff p R o : Q) : Q := R * (- p) + o * ff / mu0.

Fixpoint ffprime_samples (jtor pprime R_avg oRa : list Q) : list Q :=
  match jtor, pprime, R_avg, oRa with
  | j :: js, p :: ps, R :: Rs, o :: os =>
      ffprime_sample j p R o :: ffprime_samples js ps Rs os
  | _, _, _, _ => []
  end.

Fixpoint jtor_samples (ffprime pprime R_avg oRa : list Q) : list Q :=
  match ffprime, pprime, R_avg, oRa with
  | f :: fs, p :: ps, R :: Rs, o :: os =>
      jtor_sample f p R o :: jtor_samples fs ps Rs os
  | _, _, _, _ => []
  end.

End Conversion.


(** ** scipy's [CubicSpline]

    The interpolation library is not part of the repository.  Its
    constructor is modelled by the input validation it performs; what the
    fitted spline computes ([roots], [integrate]) is left to the
    [Scipy] interface. *)

Record spline : Type := { knots : ndarray; values : ndarray }.

Fixpoint strictly_increasing (x : ndarray) : bool :=
  match x with
  | [] => true
  | a :: t =>
      match t with
      | [] => true
      | b :: _ => (a <? b)%f64 && strictly_increasing t
      end
  end.

(** [CubicSpline(x, y)]: at least two points, matching lengths, finite
    values and strictly increasing [x], otherwise [ValueError]. *)
Definition CubicSpline (x y : ndarray) : result spline :=
  if (2 <=? length x)%nat && (length x =? length y)%nat
     && forallb is_finite x && forallb is_finite y
     && strictly_increasing x
  then Ret {| knots := x; values := y |}
  else Raise ValueError.

Class Scipy : Type := {
  (** [numpy.pi], a double *)
  numpy_pi : Q;
  (** [spline.integrate(a, b, extrapolate=False)] *)
  integrate : spline -> float64 -> float64 -> float64;
  (** [spline.roots()] *)
  roots : spline -> ndarray
}.

(** ** Flux-surface integral and current rescaling *)

Section Rescaling.

Context {scipy : Scipy}.

(** [2*numpy.pi*CubicSpline(a_avgs, a_avgs*profile).integrate(min(a_avgs),
    max(a_avgs), extrapolate=False)] *)
Definition cross_section_surf_int (profile a_avgs : ndarray) : result float64 :=
  y <- broadcast fmul a_avgs profile ;;
  spln <- CubicSpline a_avgs y ;;
  lo <- py_min a_avgs ;;
  hi <- py_max a_avgs ;;
  Ret (Fin 2 * Fin numpy_pi * integrate spln lo hi)%f64.

Definition rescale_Jtor (jtor_total : ndarray) (Ip_target : float64)
           (a_avgs : ndarray) : result (ndarray * float64) :=
  y <- broadcast fmul a_avgs jtor_total ;;
  Jtorr_inductive_integration_spline <- CubicSpline a_avgs y ;;
  lo <- py_min a_avgs ;;
  hi <- py_max a_avgs ;;
  let cross_section_surf_int :=
    (Fin 2 * Fin numpy_pi
     * integrate Jtorr_inductive_integration_spline lo hi)%f64 in
  let rescaling_factor := (Ip_target / cross_section_surf_int)%f64 in
  Ret (map (fun j => (j * rescaling_factor)%f64) jtor_total, rescaling_factor).

End Rescaling.

(** ** Locating the [q = qmin] surface *)

(** What the function writes with [print]. *)
Inductive printed : Type :=
| Text (s : string)
| Repr (a : ndarray).

(** The returned triple [(found, psicross, qcross_arg)]. *)
Definition crossing : Type := bool * option float64 * option nat.

Definition aborting (msgs : list printed) : result (list printed * crossing) :=
  Ret (msgs, (false, None, None)).

Definition msg_above : string := "No need to change anything, q already above qmin".
Definition msg_hollow : string := "q profile is hollow, aborting.".
Definition msg_multi_a : string := "q crosses qmin multiple times... (a) aborting.".
Definition msg_multi_b : string := "q crosses qmin multiple times... (b) aborting.".
Definition msg_twice : string := "q crosses qmin twice in close proximity.".
Definition msg_multi_c : string := "q crosses qmin multiple times... (c) aborting.".
Definition msg_thrice : string := "q crosses qmin 3 times in close proximity.".
Definition msg_cannot : string := "cannot find case of q crossing qmin, aborting".

Section Crossing.

Context {scipy : Scipy}.

(** [[x for x in roots if x > 0.0 and x < 1.0]] *)
Definition interior (rts : ndarray) : ndarray :=
  filter (fun x => (x >? Fin 0)%f64 && (x <? Fin 1)%f64) rts.

Definition solve_for_psi_crossing (psi qvals : ndarray) (qmin : float64)
  : result (list printed * crossing) :=
  let qcross := map (fun q => (q - qmin)%f64) qvals in
  qmin_arg <- argmin qcross ;;
  qcross_arg <- argmin (map fabs qcross) ;;
  d_min <- getitem qcross qmin_arg ;;
  if (d_min >? Fin 0)%f64 then aborting [Text msg_above]
  else
    d_axis <- getitem qcross 0 ;;
    if (d_axis >? qmin)%f64 then aborting [Text msg_hollow]
    else
      d_near <- getitem qcross qcross_arg ;;
      if (d_near =? Fin 0)%f64 then
        psicross <- getitem psi qcross_arg ;;
        Ret ([], (true, Some psicross, Some qcross_arg))
      else
        qcross_spln <- CubicSpline psi qcross ;;
        match interior (roots qcross_spln) with
        | [] => aborting [Text msg_cannot]
        | [r0] => Ret ([], (true, Some r0, Some qcross_arg))
        | [r0; r1] =>
            d_edge <- getlast qcross ;;
            py_assert (d_edge >? Fin 0)%f64 ;;;
            far_and_deep <-
              (if ((r1 - r0) >? Fin (3 # 10))%f64
               then q_lowest <- py_min qvals ;;
                    Ret (q_lowest <? qmin - Fin (1 # 10))%f64
               else Ret false) ;;
            if far_and_deep : bool
            then aborting [Repr [r0; r1]; Text msg_multi_b]
            else
              psicross <- py_max [r0; r1] ;;
              Ret ([Text msg_twice], (true, Some psicross, Some qcross_arg))
        | [r0; r1; r2] =>
            if ((r2 - r0) >? Fin (3 # 10))%f64
            then aborting [Text msg_multi_c]
            else
              psicross <- py_max [r0; r1; r2] ;;
              Ret ([Text msg_thrice], (true, Some psicross, Some qcross_arg))
        | _ => aborting [Text msg_multi_a]
        end.

End Crossing.

(** ** The equilibrium solver and one profile iteration

    The Grad-Shafranov solver ([self]) and the nested [profile_iteration]
    closures (which call the bootstrap closure and read the solver) are
    collaborators of the driver loops.  They are an interface here: the
    loops are modelled for every solver. *)

(** A profile dictionary [{'type': 'linterp', 'x': ..., 'y': ...}]. *)
Record prof : Type := { prof_x : ndarray; prof_y : ndarray }.

Definition set_y (p : prof) (y : ndarray) : prof :=
  {| prof_x := prof_x p; prof_y := y |}.

(** The tuple returned by [profile_iteration] in [solve_with_bootstrap]. *)
Record iteration : Type := {
  pp_prof : prof;
  ffp_prof : prof;
  j_BS : option ndarray;
  inductive_jtor : ndarray;
  jtor_total : ndarray;
  flux_surf_avg_of_B_timesj_BS : option ndarray
}.

(** [basic_dynamo_w_bootstrap]'s closure returns three more values. *)
Record dynamo_iteration : Type := {
  base : iteration;
  flag_end_deprecated : bool;
  q_1_psi_location : option float64;
  q0 : float64
}.

Class TokaMaker (gs : Type) : Type := {
  (** [profile_iteration(self, ..., inductive_jtor, ...,
      rescale_ind_Jtor_by_ftr=...)] of the plain variant *)
  profile_iteration : gs -> ndarray -> bool -> result iteration;
  (** [profile_iteration(self, ..., inductive_jtor, ...,
      q_1_psi_location=..., rescale_ind_Jtor_by_ftr=..., iteration=n)]
      of the dynamo variant *)
  dynamo_profile_iteration :
    gs -> ndarray -> option float64 -> bool -> Z -> result dynamo_iteration;
  (** [self.set_profiles(ffp_prof=..., pp_prof=...)] *)
  set_profiles : gs -> prof -> prof -> gs;
  (** [self.solve()]: the new solver state and the error flag *)
  solve : gs -> gs * Z;
  (** the [qvals] of [self.get_q(npsi=...)] *)
  get_q : gs -> nat -> ndarray
}.

(** [len(x)] where [x] may be [None]. *)
Definition py_len (x : option ndarray) : result nat :=
  match x with
  | Some a => Ret (length a)
  | None => Raise TypeError
  end.

(** How a driver loop is left. *)
Inductive loop_exit (S : Type) : Type :=
| Exhausted (s : S)              (** the [while] condition became false *)
| Break (s : S)                  (** [break] after [n > max_iterations] *)
| BreakQ0 (s : S)                (** [break] after [flag_end] (dynamo) *)
| SolveFailed (s : S)            (** [return] with [flag < 0] *)
| DidNotConverge (s : S)         (** [raise TypeError('... did not converge')] *)
| Propagated (e : exn) (s : S)   (** an exception raised inside the body *)
| OutOfFuel (s : S).

Arguments Exhausted {S} s.
Arguments Break {S} s.
Arguments BreakQ0 {S} s.
Arguments SolveFailed {S} s.
Arguments DidNotConverge {S} s.
Arguments Propagated {S} e s.
Arguments OutOfFuel {S} s.

Inductive step (S : Type) : Type :=
| Continue (s : S)
| Exit (e : loop_exit S).

Arguments Continue {S} s.
Arguments Exit {S} e.

Definition exit_state {S : Type} (e : loop_exit S) : S :=
  match e with
  | Exhausted s | Break s | BreakQ0 s | SolveFailed s
  | DidNotConverge s | Propagated _ s | OutOfFuel s => s
  end.

(** [while cond: body], unrolled at most [fuel] times. *)
Fixpoint while_loop {S : Type} (cond : S -> bool) (body : S -> step S)
         (fuel : nat) (s : S) : loop_exit S :=
  if cond s then
    match fuel with
    | O => OutOfFuel s
    | Datatypes.S fuel' =>
        match body s with
        | Continue s' => while_loop cond body fuel' s'
        | Exit e => e
        end
    end
  else Exhausted s.

Section Drivers.

Context {gs : Type} {tokamaker : TokaMaker gs}.

Variable max_iterations : Z.

(** *** [solve_with_bootstrap] *)

(** The variables the loop reads and writes.  [bs_calls] and
    [bs_entered] are ghost: the arguments [(ffp_prof, pp_prof)] of every
    [set_profiles] call so far, and how often the body was entered. *)
Record bs_state : Type := {
  bs_self : gs;
  bs_n : Z;
  bs_flag : Z;
  bs_inductive_jtor : ndarray;
  bs_rescale_ind_Jtor_by_ftr : bool;
  bs_last : option iteration;
  bs_calls : list (prof * prof);
  bs_entered : nat
}.

Definition bs_enter (s : bs_state) : bs_state :=
  {| bs_self := bs_self s; bs_n := bs_n s; bs_flag := bs_flag s;
     bs_inductive_jtor := bs_inductive_jtor s;
     bs_rescale_ind_Jtor_by_ftr := bs_rescale_ind_Jtor_by_ftr s;
     bs_last := bs_last s; bs_calls := bs_calls s;
     bs_entered := Datatypes.S (bs_entered s) |}.

Definition bs_cond (s : bs_state) : bool := (bs_n s <=? max_iterations)%Z.

Definition bs_body_core (s : bs_state) : result (step bs_state) :=
  it <- profile_iteration (bs_self s) (bs_inductive_jtor s)
                          (bs_rescale_ind_Jtor_by_ftr s) ;;
  pp_y <- setlast (prof_y (pp_prof it)) (Fin 0) ;;
  ffp_y <- setlast (prof_y (ffp_prof it)) (Fin 0) ;;
  let pp := set_y (pp_prof it) (nan_to_num pp_y) in
  let ffp := set_y (ffp_prof it) (nan_to_num ffp_y) in
  let self1 := set_profiles (bs_self s) ffp pp in
  let (self2, flag) := solve self1 in
  let n := (bs_n s + 1)%Z in
  let s' :=
    {| bs_self := self2; bs_n := n; bs_flag := flag;
       bs_inductive_jtor := inductive_jtor it;
       bs_rescale_ind_Jtor_by_ftr := false;
       bs_last := Some it;
       bs_calls := bs_calls s ++ [(ffp, pp)];
       bs_entered := bs_entered s |} in
  if (flag <? 0)%Z then Ret (Exit (SolveFailed s'))
  else if (n >? max_iterations)%Z && (flag >=? 0)%Z then Ret (Exit (Break s'))
  else if (n >? max_iterations + 1)%Z then Ret (Exit (DidNotConverge s'))
  else Ret (Continue s').

Definition bs_body (s : bs_state) : step bs_state :=
  let s := bs_enter s in
  match bs_body_core s with
  | Ret st => st
  | Raise e => Exit (Propagated e s)
  end.

(** [n = 0; flag = -1; while n <= max_iterations: ...] *)
Definition bs_init (self : gs) (jtor : ndarray) (rescale : bool) : bs_state :=
  {| bs_self := self; bs_n := 0; bs_flag := -1;
     bs_inductive_jtor := jtor; bs_rescale_ind_Jtor_by_ftr := rescale;
     bs_last := None; bs_calls := []; bs_entered := 0 |}.

Definition solve_with_bootstrap_loop (fuel : nat) (self : gs)
           (jtor : ndarray) (rescale : bool) : loop_exit bs_state :=
  while_loop bs_cond bs_body fuel (bs_init self jtor rescale).

(** *** [basic_dynamo_w_bootstrap] *)

Record dy_state : Type := {
  dy_self : gs;
  dy_n : Z;
  dy_flag : Z;
  dy_inductive_jtor : ndarray;
  dy_q_1_psi_location : option float64;
  dy_rescale_ind_Jtor_by_ftr : bool;
  dy_q0_vals : list float64;
  dy_q1_psi_surf : list (option float64);
  dy_qvals : ndarray;
  dy_flag_end : bool;
  dy_last : option dynamo_iteration;
  dy_calls : list (prof * prof);
  dy_entered : nat
}.

Definition dy_enter (s : dy_state) : dy_state :=
  {| dy_self := dy_self s; dy_n := dy_n s; dy_flag := dy_flag s;
     dy_inductive_jtor := dy_inductive_jtor s;
     dy_q_1_psi_location := dy_q_1_psi_location s;
     dy_rescale_ind_Jtor_by_ftr := dy_rescale_ind_Jtor_by_ftr s;
     dy_q0_vals := dy_q0_vals s; dy_q1_psi_surf := dy_q1_psi_surf s;
     dy_qvals := dy_qvals s; dy_flag_end := dy_flag_end s;
     dy_last := dy_last s; dy_calls := dy_calls s;
     dy_entered := Datatypes.S (dy_entered s) |}.

Definition dy_cond (s : dy_state) : bool := (dy_n s <=? max_iterations)%Z.

(** [qvals[0]>1.02 and qvals[0]<1.07] *)
Definition q0_in_band (q : float64) : bool :=
  (q >? Fin (102 # 100))%f64 && (q <? Fin (107 # 100))%f64.

Definition dy_body_core (s : dy_state) : result (step dy_state) :=
  it <- dynamo_profile_iteration (dy_self s) (dy_inductive_jtor s)
          (dy_q_1_psi_location s) (dy_rescale_ind_Jtor_by_ftr s) (dy_n s) ;;
  pp_y <- setlast (prof_y (pp_prof (base it))) (Fin 0) ;;
  ffp_y <- setlast (prof_y (ffp_prof (base it))) (Fin 0) ;;
  let pp := set_y (pp_prof (base it)) (nan_to_num pp_y) in
  let ffp := set_y (ffp_prof (base it)) (nan_to_num ffp_y) in
  let self1 := set_profiles (dy_self s) ffp pp in
  let (self2, flag) := solve self1 in
  npsi <- py_len (j_BS (base it)) ;;
  let qvals := get_q self2 npsi in
  q_axis <- getitem qvals 0 ;;
  let flag_end := q0_in_band q_axis in
  let n := (dy_n s + 1)%Z in
  let s' :=
    {| dy_self := self2; dy_n := n; dy_flag := flag;
       dy_inductive_jtor := inductive_jtor (base it);
       dy_q_1_psi_location := q_1_psi_location it;
       dy_rescale_ind_Jtor_by_ftr := false;
       dy_q0_vals := dy_q0_vals s ++ [q0 it];
       dy_q1_psi_surf := dy_q1_psi_surf s ++ [q_1_psi_location it];
       dy_qvals := qvals; dy_flag_end := flag_end;
       dy_last := Some it;
       dy_calls := dy_calls s ++ [(ffp, pp)];
       dy_entered := dy_entered s |} in
  if (flag <? 0)%Z then Ret (Exit (SolveFailed s'))
  else if flag_end && (flag >=? 0)%Z then Ret (Exit (BreakQ0 s'))
  else if (n >? max_iterations)%Z && (flag >=? 0)%Z then Ret (Exit (Break s'))
  else if (n >? max_iterations + 1)%Z then Ret (Exit (DidNotConverge s'))
  else Ret (Continue s').

Definition dy_body (s : dy_state) : step dy_state :=
  let s := dy_enter s in
  match dy_body_core s with
  | Ret st => st
  | Raise e => Exit (Propagated e s)
  end.

Definition dy_init (self : gs) (jtor : ndarray) (q1 : option float64)
           (rescale : bool) (q0s : list float64)
           (q1s : list (option float64)) : dy_state :=
  {| dy_self := self; dy_n := 0; dy_flag := -1;
     dy_inductive_jtor := jtor; dy_q_1_psi_location := q1;
     dy_rescale_ind_Jtor_by_ftr := rescale;
     dy_q0_vals := q0s; dy_q1_psi_surf := q1s;
     dy_qvals := []; dy_flag_end := false;
     dy_last := None; dy_calls := []; dy_entered := 0 |}.

Definition basic_dynamo_w_bootstrap_loop (fuel : nat) (self : gs)
           (jtor : ndarray) (q1 : option float64) (rescale : bool)
           (q0s : list float64) (q1s : list (option float64))
  : loop_exit dy_state :=
  while_loop dy_cond dy_body fuel (dy_init self jtor q1 rescale q0s q1s).





End Drivers.

Arguments bs_state gs : clear implicits.
Arguments dy_state gs : clear implicits.

(** ** Vocabulary of the statements *)

Definition found (c : crossing) : bool := fst (fst c).
Definition location (c : crossing) : option float64 := snd (fst c).

(** [qcross = qvals - qmin] on finite samples. *)
Definition deviations (qs : list Q) (qmin : Q) : list Q :=
  map (fun q => q - qmin) qs.

(** ** scipy on grids of two or three knots

    Through two points [CubicSpline] (with its default [not-a-knot] ends)
    is the straight line, through three points the interpolating
    parabola.  There the integral is rational, and so are the roots when
    the discriminant is a square: this instance computes them exactly.
    It serves the worked examples below; on other splines it answers
    not-a-number and no roots. *)

Module SmallGrid.

(** Coefficients [(a, b, c)] of [a x^2 + b x + c] through three points. *)
Definition parabola (x0 y0 x1 y1 x2 y2 : Q) : Q * Q * Q :=
  let w0 := y0 / ((x0 - x1) * (x0 - x2)) in
  let w1 := y1 / ((x1 - x0) * (x1 - x2)) in
  let w2 := y2 / ((x2 - x0) * (x2 - x1)) in
  (w0 + w1 + w2,
   - (w0 * (x1 + x2) + w1 * (x0 + x2) + w2 * (x0 + x1)),
   w0 * (x1 * x2) + w1 * (x0 * x2) + w2 * (x0 * x1)).

(** The line through two points, as a parabola with [a = 0]. *)
Definition line (x0 y0 x1 y1 : Q) : Q * Q * Q :=
  let m := (y1 - y0) / (x1 - x0) in
  (0, m, y0 - m * x0).

Definition eval (p : Q * Q * Q) (x : Q) : Q :=
  let '(a, b, c) := p in a * x * x + b * x + c.

Definition coefficients (s : spline) : option (Q * Q * Q) :=
  match knots s, values s with
  | [Fin x0; Fin x1], [Fin y0; Fin y1] => Some (line x0 y0 x1 y1)
  | [Fin x0; Fin x1; Fin x2], [Fin y0; Fin y1; Fin y2] =>
      Some (parabola x0 y0 x1 y1 x2 y2)
  | _, _ => None
  end.

(** The rational square root, when there is one. *)
Definition sqrt_exact (q : Q) : option Q :=
  let r := Qred q in
  let n := Qnum r in
  let d := Zpos (Qden r) in
  let sn := Z.sqrt n in
  let sd := Z.sqrt d in
  if ((0 <=? n) && (sn * sn =? n) && (sd * sd =? d))%Z
  then Some (sn # Z.to_pos sd)
  else None.

(** Real roots of [a x^2 + b x + c] in ascending order. *)
Definition real_roots (p : Q * Q * Q) : ndarray :=
  let '(a, b, c) := p in
  if Qeq_bool a 0 then
    if Qeq_bool b 0 then [] else [Fin (Qred (- c / b))]
  else
    match sqrt_exact (b * b - 4 * a * c) with
    | Some s =>
        let lo := Qred ((- b - s) / (2 * a)) in
        let hi := Qred ((- b + s) / (2 * a)) in
        if Qeq_bool s 0 then [Fin lo]
        else if Qltb lo hi then [Fin lo; Fin hi] else [Fin hi; Fin lo]
    | None => []
    end.

Definition primitive (p : Q * Q * Q) (x : Q) : Q :=
  let '(a, b, c) := p in
  a / 3 * x * x * x + b / 2 * x * x + c * x.

Definition definite_integral (s : spline) (lo hi : float64) : float64 :=
  match coefficients s, lo, hi with
  | Some p, Fin l, Fin h => Fin (primitive p h - primitive p l)
  | _, _, _ => NaN
  end.

Definition all_roots (s : spline) : ndarray :=
  match coefficients s with
  | Some p => real_roots p
  | None => []
  end.

(** [numpy.pi] is the double [884279719003555 / 2^48]. *)
Definition pi_double : Q := 884279719003555 # 281474976710656.

Definition scipy : Scipy :=
  {| numpy_pi := pi_double;
     integrate := definite_integral;
     roots := all_roots |}.

(** [2 pi] times the integral of [a] over [0, 1], as the instance
    computes it on the grid [0, 1/2, 1]: the current of the profile
    that is [1] everywhere. *)
Definition unit_current : Q :=
  521569400981552824320 # 166020696663385964544.

End SmallGrid.

(** ** A scripted solver

    A solver whose every [solve] returns the flag [flag] and whose every
    [get_q] starts with [q_axis]; each profile iteration hands back the
    profiles [y] unchanged.  The state counts the solves. *)

Module Scripted.

Definition the_prof (y : ndarray) : prof :=
  {| prof_x := of_Q [0; 1 # 2; 1]; prof_y := y |}.

Definition the_iteration (y jtor : ndarray) : iteration :=
  {| pp_prof := the_prof y; ffp_prof := the_prof y;
     j_BS := Some jtor; inductive_jtor := jtor; jtor_total := jtor;
     flux_surf_avg_of_B_timesj_BS := Some jtor |}.

Definition tokamaker (y : ndarray) (flag : Z) (q_axis : float64)
  : TokaMaker nat :=
  {| profile_iteration := fun _ jtor _ => Ret (the_iteration y jtor);
     dynamo_profile_iteration := fun _ jtor loc _ _ =>
       Ret {| base := the_iteration y jtor;
              flag_end_deprecated := false;
              q_1_psi_location := loc;
              q0 := q_axis |};
     set_profiles := fun self _ _ => self;
     solve := fun self => (S self, flag);
     get_q := fun _ npsi => q_axis :: repeat (Fin 3) (pred npsi) |}.

End Scripted.

(** ** A scripted interpolation library

    Answers every [roots()] with the given list and every integral with
    the given value; used where a run needs more roots than a parabola
    has. *)

Module ScriptedScipy.

Definition answering (rts : ndarray) (area : float64) : Scipy :=
  {| numpy_pi := SmallGrid.pi_double;
     integrate := fun _ _ _ => area;
     roots := fun _ => rts |}.

End ScriptedScipy.

(** ** More vocabulary *)

(** The samples [a_avgs * profile] of the integrand, on finite data. *)
Definition products (a profile : list Q) : list Q :=
  map (fun p => fst p * snd p) (combine a profile).

(** The spline [CubicSpline(a_avgs, a_avgs*profile)] fitted by the
    integrator. *)
Definition integrand_spline (a profile : list Q) : spline :=
  {| knots := of_Q a; values := of_Q (products a profile) |}.

(** The value of a finite sample, [0] for the others. *)
Definition finite_part (x : float64) : Q :=
  match x with Fin q => q | _ => 0 end.

Module UnitProfile.

(** The grid [0, 1/2, 1], the profile [1, 1, 1] and the target [10]. *)
Definition a_avgs : list Q := [0; 1 # 2; 1].
Definition jtor : list Q := [1; 1; 1].
Definition target : Q := 10.

Definition integral : Q :=
  Eval vm_compute in
    finite_part (SmallGrid.definite_integral (integrand_spline a_avgs jtor)
                   (Fin 0) (Fin 1)).

Definition factor : Q := target / (2 * SmallGrid.pi_double * integral).

Definition rescaled_integral : Q :=
  Eval vm_compute in
    finite_part (SmallGrid.definite_integral
                   (integrand_spline a_avgs (map (fun j => j * factor) jtor))
                   (Fin 0) (Fin 1)).

End UnitProfile.

(** ** More about the driver loops *)

(** The states in which the body of [while cond: body] is entered, in
    order. *)
Fixpoint while_trace {S : Type} (cond : S -> bool) (body : S -> step S)
         (fuel : nat) (s : S) : list S :=
  if cond s then
    match fuel with
    | O => []
    | Datatypes.S fuel' =>
        s :: match body s with
             | Continue s' => while_trace cond body fuel' s'
             | Exit _ => []
             end
    end
  else [].

Section DriversMore.

Context {gs : Type} {tokamaker : TokaMaker gs}.

Variable max_iterations : Z.

(** How the dynamo loop may be left from a state inside its bound. *)
Definition dy_good_exit (e : loop_exit (dy_state gs)) : Prop :=
  match e with
  | Break s =>
      dy_n s = (max_iterations + 1)%Z /\ (0 <= dy_flag s)%Z
      /\ dy_flag_end s = false
      /\ Z.of_nat (dy_entered s) = (max_iterations + 1)%Z
  | BreakQ0 s =>
      (dy_n s <= max_iterations + 1)%Z /\ (0 <= dy_flag s)%Z
      /\ dy_flag_end s = true
      /\ Z.of_nat (dy_entered s) = dy_n s
  | SolveFailed s =>
      (dy_flag s < 0)%Z /\ (Z.of_nat (dy_entered s) <= max_iterations + 1)%Z
  | Propagated _ s => (Z.of_nat (dy_entered s) <= max_iterations + 1)%Z
  | Exhausted _ | DidNotConverge _ | OutOfFuel _ => False
  end.


(** *** The initial solve of [solve_with_bootstrap]

    With [initialize_eq] the driver first fits cubics to the trimmed
    kinetic profiles, calls [profile_iteration] once without bootstrap
    current ([include_jBS=False, init_Lmode=True]) and solves; the fit
    and that call are one more operation of the solver interface. *)
Variable init_profile_iteration : gs -> ndarray -> bool -> result iteration.




End DriversMore.

(** ** Decoding the solver's error flag *)

Definition double_quote : string := String (Ascii.ascii_of_nat 34) EmptyString.

(** [error_reason(error_flag)] *)
Definition error_reason (error_flag : Z) : string :=
  if (error_flag =? -1)%Z
  then ("Exceeded " ++ double_quote ++ "maxits" ++ double_quote)%string
  else if (error_flag =? -2)%Z then "Total poloidal flux is zero"
  else if (error_flag =? -3)%Z then "Closed flux volume lost"
  else if (error_flag =? -4)%Z
  then ("Axis dropped below " ++ double_quote ++ "rmin" ++ double_quote)%string
  else if (error_flag =? -5)%Z then "Toroidal current droppped too low"
  else if (error_flag =? -6)%Z then "Matrix solve failed for targets"
  else if (error_flag =? -7)%Z then "Isoflux fitting failed"
  else if (error_flag =? -8)%Z then "Wall eigenmode flux loop fitting failed"
  else "Unkown reason".

(** ** Removing the pedestal samples

    [x_trimmed = psi_norm.tolist().copy()], then
    [del x_trimmed[mid_index:end_index]], and the same two indices for
    the four kinetic profiles. *)

(** A slice index as Python clamps it for a list of length [len]. *)
Definition slice_bound (len : nat) (i : Z) : nat :=
  if (i <? 0)%Z then Z.to_nat (Z.max 0 (i + Z.of_nat len))
  else Nat.min (Z.to_nat i) len.

(** [del l[start:stop]] *)
Definition del_slice {A : Type} (l : list A) (start stop : Z) : list A :=
  let a := slice_bound (length l) start in
  let b := slice_bound (length l) stop in
  firstn a l ++ skipn (Nat.max a b) l.

(** [mid_index = int(len(x_trimmed)/2)], [end_index = len(x_trimmed)-1] *)
Definition mid_index (x_trimmed : list Q) : Z := (Z.of_nat (length x_trimmed) / 2)%Z.
Definition end_index (x_trimmed : list Q) : Z := (Z.of_nat (length x_trimmed) - 1)%Z.

(** One of the five lists after the [del]; [x] is the untrimmed grid. *)
Definition trimmed (x l : list Q) : list Q :=
  del_slice l (mid_index x) (end_index x).

(** ** Uniform grids *)

(** [numpy.linspace(start, stop, num)]: [arange(num) * step + start] with
    the last sample set to [stop]. *)
Definition linspace (start stop : Q) (num : nat) : list Q :=
  match num with
  | O => []
  | S O => [start]
  | S (S _) =>
      let step := (stop - start) / inject_Z (Z.of_nat (num - 1)) in
      removelast (map (fun i => inject_Z (Z.of_nat i) * step + start)
                      (seq 0 num))
      ++ [stop]
  end.

(** The sampling grid of [get_q], [sauter_fc] and [get_profiles]: the
    statements ahead of the call into the solver library, and the grid
    among the returned values.  The result is the pair of the grid
    passed to the library and the grid returned to the caller. *)
Definition sample_points (psi_convention : Z) (psi : option ndarray)
           (psi_pad : Q) (npsi : nat) : ndarray * ndarray :=
  match psi with
  | None =>
      let psi := of_Q (linspace psi_pad (1 - psi_pad) npsi) in
      if (psi_convention =? 0)%Z then
        let psi := rev psi in
        let psi_save := map (fun x => (Fin 1 - x)%f64) psi in
        (psi, psi_save)
      else (psi, psi)
  | Some psi =>
      if (psi_convention =? 0)%Z then
        let psi_save := psi in
        let psi := map (fun x => (Fin 1 - x)%f64) psi in
        (psi, psi_save)
      else (psi, psi)
  end.

(** ** Writing profile files

    [create_prof_file] and the Python side of [set_profiles] and
    [load_profiles].  The text of a file is kept as the values it lists,
    in the order they are printed; how [format] prints a float is not
    represented.  The files written and the calls into the solver
    library are recorded in the state. *)

Module ProfFile.

(** [KeyError] beside the exceptions met so far. *)
Inductive raised : Type :=
| KeyError
| Builtin (e : exn).

Inductive outcome (A : Type) : Type :=
| Done (a : A)
| Raised (r : raised).

Arguments Done {A} a.
Arguments Raised {A} r.

Definition lift {A : Type} (m : result A) : outcome A :=
  match m with
  | Ret a => Done a
  | Raise e => Raised (Builtin e)
  end.

(** The keys of a profile dictionary the function reads; [None] is a
    missing key (for ['x'] and ['y'] also a [None] value). *)
Record profile_dict : Type := {
  d_type : option string;
  d_x : option ndarray;
  d_y : option ndarray
}.

(** [file_lines]: [['flat']], or [['linterp', '{n-1} {y[0]}', x[1:],
    y[1:]]]. *)
Inductive file_lines : Type :=
| FlatFile
| LinterpFile (count : Z) (y0 : float64) (xs ys : ndarray).

(** [numpy.diff(x)] *)
Definition diff (x : ndarray) : ndarray := zip_with fsub (tl x) x.

(** [numpy.min(a)]: not-a-number if there is one, [ValueError] on an
    empty array. *)
Definition np_min (a : ndarray) : result float64 :=
  match a with
  | [] => Raise ValueError
  | x :: t => Ret (fold_left (fun m v => if np_less v m then v else m) t x)
  end.

(** The order numpy sorts float64 by: not-a-number last. *)
Definition sorts_before (a b : float64) : bool :=
  match a, b with
  | NaN, _ => false
  | _, NaN => true
  | _, _ => (a <? b)%f64
  end.

Fixpoint insert_index (a : ndarray) (i : nat) (sorted : list nat) : list nat :=
  match sorted with
  | [] => [i]
  | j :: t =>
      if sorts_before (nth i a NaN) (nth j a NaN) then i :: sorted
      else j :: insert_index a i t
  end.

(** [a.argsort()].  Equal samples keep their order here; numpy's default
    sort leaves their order open. *)
Definition argsort (a : ndarray) : list nat :=
  fold_left (fun sorted i => insert_index a i sorted) (seq 0 (length a)) [].

(** [a[inds]] for an index array. *)
Fixpoint take (a : ndarray) (inds : list nat) : result ndarray :=
  match inds with
  | [] => Ret []
  | i :: t =>
      v <- getitem a i ;;
      r <- take a t ;;
      Ret (v :: r)
  end.

(** The lines [create_prof_file] writes for [profile_dict]. *)
Definition prof_file_lines (psi_convention : Z) (profile_dict : profile_dict)
  : outcome file_lines :=
  match d_type profile_dict with
  | None => Raised KeyError
  | Some type =>
      if String.eqb type "flat" then Done FlatFile
      else if String.eqb type "linterp" then
        match d_x profile_dict with
        | None => Raised KeyError
        | Some x =>
            match d_y profile_dict with
            | None => Raised KeyError
            | Some y =>
                lift (
                  least <- np_min (diff x) ;;
                  if (least <? Fin 0)%f64 then Raise ValueError
                  else
                    x0 <- getitem x 0 ;;
                    if (x0 <? Fin 0)%f64 then Raise ValueError
                    else
                      xlast <- getlast x ;;
                      if (xlast >? Fin 1)%f64 then Raise ValueError
                      else
                        xy <- (if (psi_convention =? 0)%Z then
                                 let x := map (fun v => (Fin 1 - v)%f64) x in
                                 let sort_inds := argsort x in
                                 x <- take x sort_inds ;;
                                 y <- take y sort_inds ;;
                                 Ret (x, y)
                               else if (psi_convention =? 1)%Z then Ret (x, y)
                               else Raise ValueError) ;;
                        y0 <- getitem (snd xy) 0 ;;
                        Ret (LinterpFile (Z.of_nat (length (fst xy)) - 1) y0
                                         (tl (fst xy)) (tl (snd xy))))
            end
        end
      else Raised KeyError
  end.

(** The solver object as far as these methods touch it. *)
Record solver : Type := {
  psi_convention : Z;
  F0 : float64;
  (** files written, oldest first *)
  files : list (string * file_lines);
  (** arguments of each [tokamaker_load_profiles] call, oldest first *)
  loaded : list (string * float64 * string * string * string)
}.

Definition with_file (self : solver) (filename : string) (f : file_lines)
  : solver :=
  {| psi_convention := psi_convention self;
     F0 := F0 self;
     files := files self ++ [(filename, f)];
     loaded := loaded self |}.

Definition with_F0 (self : solver) (foffset : float64) : solver :=
  {| psi_convention := psi_convention self;
     F0 := foffset;
     files := files self;
     loaded := loaded self |}.

(** [create_prof_file(self, filename, profile_dict, name)]; [name] only
    appears in the messages of the exceptions. *)
Definition create_prof_file (self : solver) (filename : string)
           (profile_dict : profile_dict) : solver * outcome unit :=
  match prof_file_lines (psi_convention self) profile_dict with
  | Done f => (with_file self filename f, Done tt)
  | Raised r => (self, Raised r)
  end.

(** [self.load_profiles(f_file, foffset, p_file, eta_file, f_NI_file)] *)
Definition load_profiles (self : solver) (f_file : string)
           (foffset : option float64) (p_file eta_file f_NI_file : string)
  : solver :=
  let self := match foffset with
              | Some v => with_F0 self v
              | None => self
              end in
  {| psi_convention := psi_convention self;
     F0 := F0 self;
     files := files self;
     loaded := loaded self ++ [(f_file, F0 self, p_file, eta_file, f_NI_file)] |}.

(** One [if prof is not None: file = ...; create_prof_file(...)] step:
    the file name to load, or the exception. *)
Definition optional_file (self : solver) (filename : string)
           (prof : option profile_dict) : solver * outcome string :=
  match prof with
  | None => (self, Done "none"%string)
  | Some d =>
      match create_prof_file self filename d with
      | (self, Done _) => (self, Done filename)
      | (self, Raised r) => (self, Raised r)
      end
  end.

(** [self.set_profiles(ffp_prof, foffset, pp_prof, ffp_NI_prof)] *)
Definition set_profiles (self : solver) (ffp_prof : option profile_dict)
           (foffset : option float64)
           (pp_prof ffp_NI_prof : option profile_dict)
  : solver * outcome unit :=
  match optional_file self "tokamaker_f.prof" ffp_prof with
  | (self, Raised r) => (self, Raised r)
  | (self, Done ffp_file) =>
      match optional_file self "tokamaker_p.prof" pp_prof with
      | (self, Raised r) => (self, Raised r)
      | (self, Done pp_file) =>
          let eta_file := "none"%string in
          match optional_file self "tokamaker_ffp_NI.prof" ffp_NI_prof with
          | (self, Raised r) => (self, Raised r)
          | (self, Done ffp_NI_file) =>
              let self := match foffset with
                          | Some v => with_F0 self v
                          | None => self
                          end in
              (load_profiles self ffp_file foffset pp_file eta_file ffp_NI_file,
               Done tt)
          end
      end
  end.

(** What the checks on ['x'] come to for finite knots: at least two of
    them, in non-decreasing order, the first not below 0 and the last
    not above 1. *)
Fixpoint ascending (xs : list Q) : bool :=
  match xs with
  | [] => true
  | a :: t =>
      match t with
      | [] => true
      | b :: _ => Qle_bool a b && ascending t
      end
  end.

Definition valid_knots (xs : list Q) : bool :=
  (2 <=? length xs)%nat && ascending xs
  && Qle_bool 0 (hd 0 xs) && Qle_bool (last xs 0) 1.


End ProfFile.

(** ** Smoothing a profile ([make_smooth])

    Evaluating a fitted spline, [spline(x)], is left to an interface as
    [roots] and [integrate] are. *)

Class Evaluation : Type := {
  (** [spline(x)] *)
  spline_call : spline -> float64 -> float64
}.

(** [range(n)] *)
Definition range (n : Z) : list Z := map Z.of_nat (seq 0 (Z.to_nat n)).

(** [a / b] on Python ints *)
Definition int_truediv (a b : Z) : result Q :=
  if (b =? 0)%Z then Raise ZeroDivisionError
  else Ret (inject_Z a / inject_Z b).

Section Smoothing.

Context {evaluation : Evaluation}.

(** One of the three sampling loops:
    [for i in indices: psi_n = point(i); psigrid.append(psi_n);
    valgrid.append(input_spln(psi_n))]. *)
Fixpoint sampling_loop (input_spln : spline) (point : Z -> result Q)
         (indices : list Z) (grids : list Q * ndarray)
  : result (list Q * ndarray) :=
  match indices with
  | [] => Ret grids
  | i :: rest =>
      psi_n <- point i ;;
      sampling_loop input_spln point rest
        (fst grids ++ [psi_n],
         snd grids ++ [spline_call input_spln (Fin psi_n)])
  end.

Definition make_smooth (psi_norm input_vec : ndarray) (ped_spot : Q)
           (preped_grid : Z) (pedsepl pedsepr endsep : Q) (npts : Z)
           (endzero : bool) : result (ndarray * ndarray) :=
  input_spln <- CubicSpline psi_norm input_vec ;;
  let origsize := Z.of_nat (length psi_norm) in
  let ped_grid := 50%Z in
  let preped_range := ped_spot - pedsepl in
  let endsep := if negb endzero then 0 else endsep in
  let ped_range := (1 - endsep) - (ped_spot + pedsepr) in
  grids <- sampling_loop input_spln
             (fun i => r <- int_truediv i (preped_grid - 1) ;;
                       Ret (r * preped_range))
             (range preped_grid) ([], []) ;;
  grids <- sampling_loop input_spln
             (fun i => r <- int_truediv (i + 1) 10 ;;
                       Ret (preped_range + r * (9 # 10) * pedsepl))
             (range 10) grids ;;
  grids <- sampling_loop input_spln
             (fun i => r <- int_truediv i (ped_grid - 1) ;;
                       Ret (ped_spot + pedsepr + r * ped_range))
             (range ped_grid) grids ;;
  let grids := if endzero then (fst grids ++ [1], snd grids ++ [Fin 0])
               else grids in
  smoothed_spline <- CubicSpline (of_Q (fst grids)) (snd grids) ;;
  let num := Z.max npts origsize in
  if (num <? 0)%Z then Raise ValueError
  else
    let new_psi := of_Q (linspace 0 1 (Z.to_nat num)) in
    let output_vec := map (spline_call smoothed_spline) new_psi in
    Ret (new_psi, output_vec).

End Smoothing.

(** The default arguments: [ped_spot=(0.95**2), preped_grid=20,
    pedsepl=0.1, pedsepr=0.005, endsep=0.01, npts=200, endzero=True]. *)
Definition default_ped_spot : Q := (95 # 100) * (95 # 100).
Definition default_pedsepl : Q := 1 # 10.
Definition default_pedsepr : Q := 5 # 1000.
Definition default_endsep : Q := 1 # 100.

(** A stand-in for spline evaluation in closed examples: straight lines
    between the knots, the end pieces carried on outside. *)
Module Polyline.

Fixpoint segments (x y : list Q) (q : Q) : Q :=
  match x, y with
  | x0 :: ((x1 :: _) as xt), y0 :: ((y1 :: _) as yt) =>
      match xt with
      | [_] => y0 + (q - x0) * ((y1 - y0) / (x1 - x0))
      | _ => if Qle_bool q x1
             then y0 + (q - x0) * ((y1 - y0) / (x1 - x0))
             else segments xt yt q
      end
  | _, y0 :: _ => y0
  | _, _ => 0
  end.

Definition evaluation : Evaluation :=
  {| spline_call := fun s v =>
       match v with
       | Fin q => Fin (segments (map finite_part (knots s))
                                (map finite_part (values s)) q)
       | _ => NaN
       end |}.

End Polyline.


(** ** Facts about samples and arrays *)

Lemma Qeq_bool_false (a b : Q) : ~ a == b -> Qeq_bool a b = false.
Proof.
  intros H. destruct (Qeq_bool a b) eqn:E; [|reflexivity].
  apply Qeq_bool_iff in E. contradiction.
Qed.

Lemma Qltb_spec (a b : Q) : reflect (a < b) (Qltb a b).
Proof.
  unfold Qltb. destruct (Qle_bool b a) eqn:E; simpl; constructor.
  - apply Qle_bool_iff in E. apply Qle_not_lt. exact E.
  - apply Qnot_le_lt. intros H. apply Qle_bool_iff in H. congruence.
Qed.

Lemma fdiv_Fin (a b : Q) : ~ b == 0 -> (Fin a / Fin b)%f64 = Fin (a / b).
Proof. intros H. simpl. rewrite (Qeq_bool_false _ _ H). reflexivity. Qed.

Lemma of_Q_length (l : list Q) : length (of_Q l) = length l.
Proof. apply length_map. Qed.

Lemma broadcast_same op (xs ys : ndarray) :
  length xs = length ys -> broadcast op xs ys = Ret (zip_with op xs ys).
Proof.
  intros H. unfold broadcast. rewrite H, Nat.eqb_refl. reflexivity.
Qed.

Lemma zip_with_length op (xs ys : ndarray) :
  length xs = length ys -> length (zip_with op xs ys) = length xs.
Proof.
  revert ys. induction xs as [|x xs IH]; intros [|y ys] H; simpl in *;
    try discriminate; auto.
Qed.

(** ** The conversion on finite samples *)

Section ConversionFacts.

Variable mu0 : Q.

Lemma ffprime_samples_length jtor : forall pprime R_avg oRa,
  length pprime = length jtor -> length R_avg = length jtor ->
  length oRa = length jtor ->
  length (ffprime_samples mu0 jtor pprime R_avg oRa) = length jtor.
Proof.
  induction jtor as [|j js IH]; intros [|p ps] [|R Rs] [|o os] Hp HR Ho;
    simpl in *; try discriminate; auto.
Qed.

Lemma ffprime_zip jtor : forall pprime R_avg oRa,
  length pprime = length jtor -> length R_avg = length jtor ->
  length oRa = length jtor ->
  Forall (fun o => ~ o == 0) oRa ->
  zip_with fmul
    (zip_with fsub (of_Q jtor)
       (zip_with fmul (of_Q R_avg) (map fopp (of_Q pprime))))
    (map (fdiv (Fin mu0)) (of_Q oRa))
  = of_Q (ffprime_samples mu0 jtor pprime R_avg oRa).
Proof.
  induction jtor as [|j js IH]; intros [|p ps] [|R Rs] [|o os] Hp HR Ho Hnz;
    simpl in *; try discriminate; auto.
  inversion Hnz as [|? ? Hz Hnz']; subst.
  rewrite (Qeq_bool_false _ _ Hz). f_equal.
  apply IH; auto.
Qed.

Lemma ffprime_on_finite jtor pprime R_avg oRa :
  length pprime = length jtor -> length R_avg = length jtor ->
  length oRa = length jtor ->
  Forall (fun o => ~ o == 0) oRa ->
  ffprime_from_jtor_pprime mu0 (of_Q jtor) (of_Q pprime) (of_Q R_avg) (of_Q oRa)
  = Ret (of_Q (ffprime_samples mu0 jtor pprime R_avg oRa)).
Proof.
  intros Hp HR Ho Hnz. unfold ffprime_from_jtor_pprime.
  rewrite broadcast_same
    by (rewrite length_map, !of_Q_length; congruence).
  simpl bind.
  rewrite broadcast_same
    by (rewrite zip_with_length, !of_Q_length;
        rewrite ?length_map, ?of_Q_length; congruence).
  simpl bind.
  rewrite broadcast_same.
  - f_equal. apply ffprime_zip; auto.
  - rewrite length_map, !zip_with_length, !of_Q_length;
      rewrite ?length_map, ?of_Q_length, ?zip_with_length;
      rewrite ?length_map, ?of_Q_length; congruence.
Qed.


Lemma jtor_zip ffprime : forall pprime R_avg oRa,
  length pprime = length ffprime -> length R_avg = length ffprime ->
  length oRa = length ffprime ->
  ~ mu0 == 0 ->
  zip_with fadd
    (zip_with fmul (of_Q R_avg) (map fopp (of_Q pprime)))
    (map (fun x => (x / Fin mu0)%f64)
       (zip_with fmul (of_Q oRa) (of_Q ffprime)))
  = of_Q (jtor_samples mu0 ffprime pprime R_avg oRa).
Proof.
  induction ffprime as [|f fs IH]; intros [|p ps] [|R Rs] [|o os] Hp HR Ho Hmu;
    simpl in *; try discriminate; auto.
  rewrite (Qeq_bool_false _ _ Hmu). f_equal.
  apply IH; auto.
Qed.

Lemma jtor_on_finite ffprime pprime R_avg oRa :
  length pprime = length ffprime -> length R_avg = length ffprime ->
  length oRa = length ffprime ->
  ~ mu0 == 0 ->
  jtor_from_ffprime_pprime mu0 (of_Q ffprime) (of_Q pprime) (of_Q R_avg) (of_Q oRa)
  = Ret (of_Q (jtor_samples mu0 ffprime pprime R_avg oRa)).
Proof.
  intros Hp HR Ho Hmu. unfold jtor_from_ffprime_pprime.
  rewrite broadcast_same
    by (rewrite length_map, !of_Q_length; congruence).
  simpl bind.
  rewrite broadcast_same by (rewrite !of_Q_length; congruence).
  simpl bind.
  rewrite broadcast_same.
  - f_equal. apply jtor_zip; auto.
  - rewrite length_map, !zip_with_length, !of_Q_length;
      rewrite ?length_map, ?of_Q_length; congruence.
Qed.

Lemma sample_round_trip (j p R o : Q) :
  ~ mu0 == 0 -> ~ o == 0 ->
  jtor_sample mu0 (ffprime_sample mu0 j p R o) p R o == j.
Proof.
  intros Hmu Ho. unfold jtor_sample, ffprime_sample. field. auto.
Qed.

Lemma samples_round_trip jtor : forall pprime R_avg oRa,
  length pprime = length jtor -> length R_avg = length jtor ->
  length oRa = length jtor ->
  ~ mu0 == 0 -> Forall (fun o => ~ o == 0) oRa ->
  Forall2 Qeq
    (jtor_samples mu0 (ffprime_samples mu0 jtor pprime R_avg oRa) pprime R_avg oRa)
    jtor.
Proof.
  induction jtor as [|j js IH]; intros [|p ps] [|R Rs] [|o os] Hp HR Ho Hmu Hnz;
    simpl in *; try discriminate; auto.
  inversion Hnz; subst. constructor.
  - apply sample_round_trip; auto.
  - apply IH; auto.
Qed.

End ConversionFacts.

(** ** Minimum searches on finite samples *)

Lemma np_less_Fin (x b : Q) : np_less (Fin x) (Fin b) = Qltb x b.
Proof. reflexivity. Qed.

Lemma argmin_from_bound (l : ndarray) : forall best ibest i,
  (ibest < i)%nat -> (argmin_from best ibest i l < i + length l)%nat.
Proof.
  induction l as [|x t IH]; intros best ibest i Hi; simpl.
  - lia.
  - destruct (np_less x best).
    + specialize (IH x i (S i)). lia.
    + specialize (IH best ibest (S i)). lia.
Qed.

Lemma argmin_in_range (a : ndarray) (k : nat) :
  argmin a = Ret k -> (k < length a)%nat.
Proof.
  destruct a as [|x t]; simpl; [discriminate|].
  intros H. injection H as <-.
  pose proof (argmin_from_bound t x 0%nat 1%nat). lia.
Qed.

Lemma argmin_from_least (full : list Q) : forall l pre best ibest,
  full = pre ++ l ->
  nth_error full ibest = Some best ->
  (forall y, In y pre -> best <= y) ->
  exists m,
    nth_error full (argmin_from (Fin best) ibest (length pre) (of_Q l)) = Some m
    /\ forall y, In y full -> m <= y.
Proof.
  induction l as [|x t IH]; intros pre best ibest Hfull Hbest Hpre;
    unfold of_Q; cbn [map argmin_from]; fold of_Q.
  - exists best. split; [exact Hbest|].
    intros y Hy. apply Hpre. rewrite Hfull, app_nil_r in Hy. exact Hy.
  - rewrite np_less_Fin.
    assert (Hlen : length (pre ++ [x]) = S (length pre))
      by (rewrite length_app; simpl; lia).
    assert (Hsplit : full = (pre ++ [x]) ++ t)
      by (rewrite <- app_assoc; exact Hfull).
    destruct (Qltb_spec x best) as [Hlt | Hge].
    + rewrite <- Hlen. apply IH; auto.
      * rewrite Hfull, nth_error_app2, Nat.sub_diag by lia. reflexivity.
      * intros y Hy. apply in_app_or in Hy. destruct Hy as [Hy | [<- | []]].
        -- apply Qle_trans with best; [apply Qlt_le_weak; exact Hlt | auto].
        -- apply Qle_refl.
    + rewrite <- Hlen. apply IH; auto.
      intros y Hy. apply in_app_or in Hy. destruct Hy as [Hy | [<- | []]].
      * auto.
      * apply Qnot_lt_le. exact Hge.
Qed.

(** On a non-empty array of finite samples [argmin] returns the index of
    a least sample. *)
Lemma argmin_least (l : list Q) :
  l <> [] ->
  exists k m, argmin (of_Q l) = Ret k /\ nth_error l k = Some m
              /\ forall y, In y l -> m <= y.
Proof.
  destruct l as [|x t]; [congruence|]. intros _.
  destruct (argmin_from_least (x :: t) t [x] x 0%nat) as [m [Hm Hle]]; auto.
  - intros y [<- | []]. apply Qle_refl.
  - exists (argmin_from (Fin x) 0%nat 1%nat (of_Q t)), m. auto.
Qed.



Lemma getitem_of_Q (l : list Q) (k : nat) (m : Q) :
  nth_error l k = Some m -> getitem (of_Q l) k = Ret (Fin m).
Proof.
  intros H. unfold getitem, of_Q. rewrite nth_error_map, H. reflexivity.
Qed.

Lemma last_of_Q (t : list Q) : forall y, last (of_Q t) (Fin y) = Fin (last t y).
Proof.
  induction t as [|z t IH]; intros y; [reflexivity|].
  unfold of_Q in *. cbn [map last]. destruct t as [|w t']; [reflexivity|].
  apply (IH y).
Qed.

Lemma last_cons_default {A : Type} (t : list A) : forall y x : A,
  last (y :: t) x = last t y.
Proof.
  induction t as [|z t IH]; intros y x; [reflexivity|].
  change (last (y :: z :: t) x) with (last (z :: t) x).
  rewrite (IH z x), (IH z y). reflexivity.
Qed.

Lemma getlast_of_Q (l : list Q) (x : Q) :
  l <> [] -> getlast (of_Q l) = Ret (Fin (last l x)).
Proof.
  destruct l as [|y t]; [congruence|]. intros _.
  unfold getlast, of_Q. cbn [map]. fold (of_Q t).
  rewrite last_of_Q, last_cons_default. reflexivity.
Qed.

(** ** Facts about the rescaler *)

Section RescalingFacts.

Context {scipy : Scipy}.

(** [rescale_Jtor] recomputes the integral of [cross_section_surf_int]
    and divides the target by it. *)
Lemma rescale_Jtor_unfold (jtor : ndarray) (Ip I : float64) (a : ndarray) :
  cross_section_surf_int jtor a = Ret I ->
  rescale_Jtor jtor Ip a
  = Ret (map (fun j => (j * (Ip / I))%f64) jtor, (Ip / I)%f64).
Proof.
  unfold cross_section_surf_int, rescale_Jtor. intros H.
  destruct (broadcast fmul a jtor) as [y|e]; simpl in *; [|discriminate].
  destruct (CubicSpline a y) as [s|e]; simpl in *; [|discriminate].
  destruct (py_min a) as [lo|e]; simpl in *; [|discriminate].
  destruct (py_max a) as [hi|e]; simpl in *; [|discriminate].
  injection H as <-. reflexivity.
Qed.

Lemma fdiv_by_zero_not_finite (x : float64) (i : Q) :
  i == 0 -> is_finite (x / Fin i)%f64 = false.
Proof.
  intros Hi. apply Qeq_bool_iff in Hi.
  destruct x as [a| | |]; simpl.
  - rewrite Hi. destruct (Qeq_bool a 0); [reflexivity|].
    unfold inf_of_sign. destruct (Qltb a 0); reflexivity.
  - unfold inf_of_sign. destruct (Qltb i 0); reflexivity.
  - unfold inf_of_sign. destruct (Qltb i 0); reflexivity.
  - reflexivity.
Qed.

End RescalingFacts.

(** ** Facts about the crossing solver *)

Lemma qcross_of_Q (qs : list Q) (qmin : Q) :
  map (fun q => (q - Fin qmin)%f64) (of_Q qs) = of_Q (deviations qs qmin).
Proof.
  unfold of_Q, deviations. rewrite !map_map. reflexivity.
Qed.

Lemma in_deviations (qs : list Q) (qmin d : Q) :
  In d (deviations qs qmin) <-> exists q, In q qs /\ d = q - qmin.
Proof.
  unfold deviations. rewrite in_map_iff.
  split; intros [q [H1 H2]]; exists q; split; auto.
Qed.

Lemma last_map_default {A B : Type} (f : A -> B) (l : list A) (d : A) :
  last (map f l) (f d) = f (last l d).
Proof.
  induction l as [|x t IH]; [reflexivity|].
  cbn [map last]. destruct t as [|y t']; [reflexivity | exact IH].
Qed.

Lemma last_deviation (qs : list Q) (qmin : Q) :
  last (deviations qs qmin) (0 - qmin) = last qs 0 - qmin.
Proof. apply (last_map_default (fun q => q - qmin)). Qed.

Lemma fgtb_Fin (a b : Q) : (Fin a >? Fin b)%f64 = Qltb b a.
Proof. reflexivity. Qed.

Lemma fltb_Fin (a b : Q) : (Fin a <? Fin b)%f64 = Qltb a b.
Proof. reflexivity. Qed.

Lemma Qltb_true (a b : Q) : a < b -> Qltb a b = true.
Proof. intros H. destruct (Qltb_spec a b); [reflexivity | contradiction]. Qed.

Lemma Qltb_false (a b : Q) : b <= a -> Qltb a b = false.
Proof.
  intros H. destruct (Qltb_spec a b) as [Hlt|]; [|reflexivity].
  exfalso. exact (Qle_not_lt _ _ H Hlt).
Qed.

(** The sample nearest to the target is one of the samples. *)
Lemma nearest_sample (ds : list Q) :
  ds <> [] ->
  exists k d, argmin (map fabs (of_Q ds)) = Ret k
              /\ nth_error ds k = Some d /\ In d ds.
Proof.
  intros Hne.
  destruct (argmin (map fabs (of_Q ds))) as [k|e] eqn:E.
  - pose proof (argmin_in_range _ _ E) as Hk.
    rewrite length_map, of_Q_length in Hk.
    destruct (nth_error ds k) as [d|] eqn:Ed.
    + exists k, d. repeat split; auto. eapply nth_error_In; eauto.
    + apply nth_error_None in Ed. lia.
  - destruct ds; [congruence | discriminate].
Qed.

Section CrossingFacts.

Context {scipy : Scipy}.

(** The two guards ahead of the exact-zero test, on finite samples. *)
Lemma crossing_guards (psi : ndarray) (qs : list Q) (qmin q_axis : Q) :
  hd_error qs = Some q_axis ->
  (exists q, In q qs /\ q - qmin <= 0) ->
  exists k d,
    nth_error (deviations qs qmin) k = Some d /\
    argmin (map fabs (of_Q (deviations qs qmin))) = Ret k /\
    solve_for_psi_crossing psi (of_Q qs) (Fin qmin) =
    if Qltb qmin (q_axis - qmin) then aborting [Text msg_hollow]
    else if Qeq_bool d 0 then
           psicross <- getitem psi k ;;
           Ret ([], (true, Some psicross, Some k))
         else
           qcross_spln <- CubicSpline psi (of_Q (deviations qs qmin)) ;;
           match interior (roots qcross_spln) with
           | [] => aborting [Text msg_cannot]
           | [r0] => Ret ([], (true, Some r0, Some k))
           | [r0; r1] =>
               d_edge <- getlast (of_Q (deviations qs qmin)) ;;
               py_assert (d_edge >? Fin 0)%f64 ;;;
               far_and_deep <-
                 (if ((r1 - r0) >? Fin (3 # 10))%f64
                  then q_lowest <- py_min (of_Q qs) ;;
                       Ret (q_lowest <? Fin qmin - Fin (1 # 10))%f64
                  else Ret false) ;;
               if far_and_deep : bool
               then aborting [Repr [r0; r1]; Text msg_multi_b]
               else
                 psicross <- py_max [r0; r1] ;;
                 Ret ([Text msg_twice], (true, Some psicross, Some k))
           | [r0; r1; r2] =>
               if ((r2 - r0) >? Fin (3 # 10))%f64
               then aborting [Text msg_multi_c]
               else
                 psicross <- py_max [r0; r1; r2] ;;
                 Ret ([Text msg_thrice], (true, Some psicross, Some k))
           | _ => aborting [Text msg_multi_a]
           end.
Proof.
  intros Hhd [q [Hq Hdev]].
  assert (Hne : deviations qs qmin <> []).
  { destruct qs; [destruct Hq | discriminate]. }
  destruct (argmin_least _ Hne) as [k1 [m [Hk1 [Hm Hleast]]]].
  destruct (nearest_sample _ Hne) as [k [d [Hk [Hd _]]]].
  exists k, d. split; [exact Hd|]. split; [exact Hk|].
  unfold solve_for_psi_crossing. rewrite qcross_of_Q, Hk1, Hk.
  cbn [bind]. rewrite (getitem_of_Q _ _ _ Hm). cbn [bind].
  rewrite fgtb_Fin, Qltb_false.
  2:{ apply Qle_trans with (q - qmin); [|exact Hdev].
      apply Hleast. apply in_deviations. exists q. auto. }
  assert (Haxis : nth_error (deviations qs qmin) 0 = Some (q_axis - qmin)).
  { destruct qs as [|a t]; [discriminate|]. simpl in Hhd.
    injection Hhd as ->. reflexivity. }
  rewrite (getitem_of_Q _ _ _ Haxis). cbn [bind].
  rewrite fgtb_Fin. destruct (Qltb qmin (q_axis - qmin)); [reflexivity|].
  rewrite (getitem_of_Q _ _ _ Hd). cbn [bind].
  change (Fin d =? Fin 0)%f64 with (Qeq_bool d 0).
  reflexivity.
Qed.

End CrossingFacts.

(** ** The worked three-knot examples *)

(** The parabola of [SmallGrid] passes through its three points. *)
Lemma parabola_interpolates (x0 y0 x1 y1 x2 y2 : Q) :
  ~ x0 == x1 -> ~ x0 == x2 -> ~ x1 == x2 ->
  SmallGrid.eval (SmallGrid.parabola x0 y0 x1 y1 x2 y2) x0 == y0 /\
  SmallGrid.eval (SmallGrid.parabola x0 y0 x1 y1 x2 y2) x1 == y1 /\
  SmallGrid.eval (SmallGrid.parabola x0 y0 x1 y1 x2 y2) x2 == y2.
Proof.
  intros H01 H02 H12.
  assert (~ x0 - x1 == 0) by (intros E; apply H01; lra).
  assert (~ x0 - x2 == 0) by (intros E; apply H02; lra).
  assert (~ x1 - x2 == 0) by (intros E; apply H12; lra).
  assert (~ x1 - x0 == 0) by (intros E; apply H01; lra).
  assert (~ x2 - x0 == 0) by (intros E; apply H02; lra).
  assert (~ x2 - x1 == 0) by (intros E; apply H12; lra).
  unfold SmallGrid.eval, SmallGrid.parabola.
  repeat split; field; repeat split; auto.
Qed.

(** Deviations [-0.3, 0.1, -0.3] on the grid [0, 1/2, 1]: the
    interpolating parabola vanishes at [1/4] and [3/4] and nowhere else
    in between. *)
Example dome_roots :
  let p := SmallGrid.parabola 0 (- (3 # 10)) (1 # 2) (1 # 10) 1 (- (3 # 10)) in
  SmallGrid.eval p (1 # 4) == 0 /\ SmallGrid.eval p (3 # 4) == 0 /\
  forall x, SmallGrid.eval p x == 0 -> x == 1 # 4 \/ x == 3 # 4.
Proof.
  cbv zeta. split; [reflexivity|]. split; [reflexivity|].
  intros x Hx.
  assert (E : (x - (1 # 4)) * (x - (3 # 4)) == 0).
  { unfold SmallGrid.eval, SmallGrid.parabola in Hx.
    rewrite <- (Qmult_0_r (- (5 # 8))).
    rewrite <- Hx. field. }
  apply Qmult_integral in E. destruct E as [E | E]; [left | right]; lra.
Qed.

(** ** Facts about the driver loops *)





Ltac case_body :=
  repeat match goal with
         | |- context [bind ?m _] =>
             let E := fresh "E" in destruct m eqn:E; cbn [bind]
         | |- context [let (_, _) := ?x in _] =>
             let E := fresh "E" in destruct x eqn:E
         | |- context [if ?b then _ else _] =>
             let E := fresh "E" in destruct b eqn:E
         end.

Section DriverFacts.

Context {gs : Type} {tokamaker : TokaMaker gs}.

Variable max_iterations : Z.





End DriverFacts.

(** * Claims: flux-function conversion *)



(** With [mu0 = 1]: [(3 - 2 * (-1)) * 1 / (1/2) = 10], neither [5] nor
    [20]; a zero in [one_over_R_avg] gives an infinity, not an error. *)
Example ffprime_literal :
  ffprime_from_jtor_pprime 1 (of_Q [3; 4]) (of_Q [1; 1]) (of_Q [2; 2])
                           (of_Q [1 # 2; 0])
  = Ret [Fin 10; PInf].
Proof. vm_compute. reflexivity. Qed.

(** C10. Writing [FF'] from a current and reading the current back gives
    the current again, sample by sample, when [mu0] and every
    [one_over_R_avg] sample are non-zero. *)
Theorem conversion_round_trip (mu0 : Q)
        (jtor pprime R_avg one_over_R_avg : list Q) :
  length pprime = length jtor ->
  length R_avg = length jtor ->
  length one_over_R_avg = length jtor ->
  ~ mu0 == 0 ->
  Forall (fun o => ~ o == 0) one_over_R_avg ->
  exists back : list Q,
    (ffprime <- ffprime_from_jtor_pprime mu0 (of_Q jtor) (of_Q pprime)
                  (of_Q R_avg) (of_Q one_over_R_avg) ;;
     jtor_from_ffprime_pprime mu0 ffprime (of_Q pprime) (of_Q R_avg)
                              (of_Q one_over_R_avg))
    = Ret (of_Q back)
    /\ Forall2 Qeq back jtor.
Proof.
  intros Hp HR Ho Hmu Hnz.
  exists (jtor_samples mu0 (ffprime_samples mu0 jtor pprime R_avg one_over_R_avg)
                       pprime R_avg one_over_R_avg).
  split.
  - rewrite ffprime_on_finite by auto. cbn [bind].
    pose proof (ffprime_samples_length mu0 jtor pprime R_avg one_over_R_avg
                  Hp HR Ho) as Hlen.
    apply jtor_on_finite; auto; congruence.
  - apply samples_round_trip; auto.
Qed.

Lemma conversion_round_trip_witness :
  exists back : list Q,
    (ffprime <- ffprime_from_jtor_pprime (1256637 # 1000000000000)
                  (of_Q [3; 4]) (of_Q [1; 1]) (of_Q [2; 2])
                  (of_Q [1 # 2; 1 # 4]) ;;
     jtor_from_ffprime_pprime (1256637 # 1000000000000) ffprime
       (of_Q [1; 1]) (of_Q [2; 2]) (of_Q [1 # 2; 1 # 4]))
    = Ret (of_Q back)
    /\ Forall2 Qeq back [3; 4].
Proof.
  apply (conversion_round_trip (1256637 # 1000000000000)
           [3; 4] [1; 1] [2; 2] [1 # 2; 1 # 4]); try reflexivity.
  - intros H; discriminate H.
  - repeat constructor; intros H; discriminate H.
Defined.

(** * Claims: current rescaling *)

(** C4. When the flux-surface integral of a finite profile is the
    non-zero [current], [rescale_Jtor] returns the profile with every
    sample multiplied by the one factor [target / current], together with
    that factor; the factor times [current] is [target]. *)
Theorem rescale_Jtor_uniform {scipy : Scipy}
        (jtor : list Q) (target current : Q) (a_avgs : ndarray) :
  cross_section_surf_int (of_Q jtor) a_avgs = Ret (Fin current) ->
  ~ current == 0 ->
  rescale_Jtor (of_Q jtor) (Fin target) a_avgs
  = Ret (of_Q (map (fun j => j * (target / current)) jtor),
         Fin (target / current))
  /\ target / current * current == target.
Proof.
  intros Hint Hnz. split.
  - rewrite (rescale_Jtor_unfold _ _ _ _ Hint), (fdiv_Fin _ _ Hnz).
    unfold of_Q. rewrite !map_map. reflexivity.
  - field. exact Hnz.
Qed.

Lemma rescale_Jtor_uniform_witness :
  @rescale_Jtor SmallGrid.scipy (of_Q [1; 1; 1]) (Fin 10) (of_Q [0; 1 # 2; 1])
  = Ret (of_Q (map (fun j => j * (10 / SmallGrid.unit_current)) [1; 1; 1]),
         Fin (10 / SmallGrid.unit_current))
  /\ 10 / SmallGrid.unit_current * SmallGrid.unit_current == 10.
Proof.
  apply (@rescale_Jtor_uniform SmallGrid.scipy [1; 1; 1] 10
           SmallGrid.unit_current (of_Q [0; 1 # 2; 1])).
  - vm_compute. reflexivity.
  - intros H; discriminate H.
Defined.

(** C5, as the code has it.  When the flux-surface integral is exactly
    zero no exception is raised: the factor is the non-finite quotient of
    the target by zero, and [rescale_Jtor] returns the profile multiplied
    by it. *)
Theorem rescale_Jtor_zero_integral {scipy : Scipy}
        (jtor : ndarray) (Ip_target : float64) (a_avgs : ndarray) (current : Q) :
  cross_section_surf_int jtor a_avgs = Ret (Fin current) ->
  current == 0 ->
  exists factor,
    rescale_Jtor jtor Ip_target a_avgs
    = Ret (map (fun j => (j * factor)%f64) jtor, factor)
    /\ is_finite factor = false.
Proof.
  intros Hint Hz. exists (Ip_target / Fin current)%f64. split.
  - apply rescale_Jtor_unfold. exact Hint.
  - apply fdiv_by_zero_not_finite. exact Hz.
Qed.

Lemma rescale_Jtor_zero_integral_witness :
  exists factor,
    @rescale_Jtor SmallGrid.scipy (of_Q [0; 0; 0]) (Fin 1) (of_Q [0; 1 # 2; 1])
    = Ret (map (fun j => (j * factor)%f64) (of_Q [0; 0; 0]), factor)
    /\ is_finite factor = false.
Proof.
  apply (@rescale_Jtor_zero_integral SmallGrid.scipy (of_Q [0; 0; 0]) (Fin 1)
           (of_Q [0; 1 # 2; 1]) (0 # 166020696663385964544)).
  - vm_compute. reflexivity.
  - reflexivity.
Defined.

(** C5, as stated, fails: the all-zero profile on the grid [0, 1/2, 1]
    has integral zero, and [rescale_Jtor] returns not-a-number samples
    and an infinite factor instead of raising. *)
Lemma rescale_Jtor_zero_profile_returns :
  @cross_section_surf_int SmallGrid.scipy (of_Q [0; 0; 0]) (of_Q [0; 1 # 2; 1])
  = Ret (Fin (0 # 166020696663385964544))
  /\ @rescale_Jtor SmallGrid.scipy (of_Q [0; 0; 0]) (Fin 1) (of_Q [0; 1 # 2; 1])
     = Ret ([NaN; NaN; NaN], PInf)
  /\ @rescale_Jtor SmallGrid.scipy (of_Q [0; 0; 0]) (Fin 1) (of_Q [0; 1 # 2; 1])
     <> Raise ZeroDivisionError.
Proof.
  split; [vm_compute; reflexivity|].
  split; [vm_compute; reflexivity|].
  vm_compute. discriminate.
Qed.

(** * Claims: the crossing solver *)

(** C2, as the code has it.  When the deviation [q - qmin] is not
    positive everywhere and the deviation at the axis exceeds [qmin]
    itself, the solver reports the hollow profile: it prints the message
    and returns [found = False] with no location and no grid index. *)
Theorem hollow_profile_abort {scipy : Scipy}
        (psi : ndarray) (qs : list Q) (qmin q_axis : Q) :
  hd_error qs = Some q_axis ->
  (exists q, In q qs /\ q - qmin <= 0) ->
  qmin < q_axis - qmin ->
  solve_for_psi_crossing psi (of_Q qs) (Fin qmin)
  = Ret ([Text msg_hollow], (false, None, None)).
Proof.
  intros Hhd Hneg Haxis.
  destruct (crossing_guards psi qs qmin q_axis Hhd Hneg) as [k [d [_ [_ E]]]].
  rewrite E, Qltb_true by exact Haxis. reflexivity.
Qed.

Lemma hollow_profile_abort_witness :
  @solve_for_psi_crossing SmallGrid.scipy (of_Q [0; 1 # 2; 1])
    (of_Q [3; 1; 3]) (Fin (102 # 100))
  = Ret ([Text msg_hollow], (false, None, None)).
Proof.
  apply (@hollow_profile_abort SmallGrid.scipy (of_Q [0; 1 # 2; 1])
           [3; 1; 3] (102 # 100) 3).
  - reflexivity.
  - exists 1. split; [right; left; reflexivity | discriminate].
  - reflexivity.
Defined.

(** C2, as stated, fails: with [q = 1.5, 1, 1.02, 1.5] and
    [qmin = 1.02] the deviation is negative at the second sample and
    positive ([0.48]) at the axis, yet the solver returns [found = True]
    with the grid point where [q] meets [qmin]. *)
Lemma positive_axis_deviation_not_aborted :
  @solve_for_psi_crossing SmallGrid.scipy (of_Q [0; 1 # 3; 2 # 3; 1])
    (of_Q [3 # 2; 1; 102 # 100; 3 # 2]) (Fin (102 # 100))
  = Ret ([], (true, Some (Fin (2 # 3)), Some 2%nat)).
Proof. vm_compute. reflexivity. Qed.

(** The same run does not consult the spline at all. *)
Remark positive_axis_deviation_any_scipy (scipy : Scipy) :
  solve_for_psi_crossing (of_Q [0; 1 # 3; 2 # 3; 1])
    (of_Q [3 # 2; 1; 102 # 100; 3 # 2]) (Fin (102 # 100))
  = Ret ([], (true, Some (Fin (2 # 3)), Some 2%nat)).
Proof. vm_compute. reflexivity. Qed.




(** C9.  The solver is not total: for [q = 0.72, 1.12, 0.72] on the grid
    [0, 1/2, 1] and [qmin = 1.02] the spline stage is reached, the
    spline has the two interior roots [1/4] and [3/4], the deviation at
    the last sample is [-0.3], and the assertion of the two-root branch
    fails. *)
Theorem two_root_assertion_fails :
  interior (@roots SmallGrid.scipy
              {| knots := of_Q [0; 1 # 2; 1];
                 values := of_Q (deviations [72 # 100; 112 # 100; 72 # 100]
                                            (102 # 100)) |})
  = [Fin (1 # 4); Fin (3 # 4)]
  /\ getlast (of_Q (deviations [72 # 100; 112 # 100; 72 # 100] (102 # 100)))
     = Ret (Fin (-3000 # 10000))
  /\ @solve_for_psi_crossing SmallGrid.scipy (of_Q [0; 1 # 2; 1])
       (of_Q [72 # 100; 112 # 100; 72 # 100]) (Fin (102 # 100))
     = Raise AssertionError.
Proof. repeat split; vm_compute; reflexivity. Qed.

(** The assertion fails for every interpolation library that finds two
    interior roots while the last deviation is not positive. *)
Remark two_root_assertion_general {scipy : Scipy}
       (psi qs : list Q) (qmin q_axis : Q) (r0 r1 : float64)
       (qcross_spln : spline) :
  hd_error qs = Some q_axis ->
  (exists q, In q qs /\ q - qmin <= 0) ->
  q_axis - qmin <= qmin ->
  (forall q, In q qs -> ~ q - qmin == 0) ->
  CubicSpline (of_Q psi) (of_Q (deviations qs qmin)) = Ret qcross_spln ->
  interior (roots qcross_spln) = [r0; r1] ->
  last qs 0 - qmin <= 0 ->
  solve_for_psi_crossing (of_Q psi) (of_Q qs) (Fin qmin) = Raise AssertionError.
Proof.
  intros Hhd Hneg Haxis Hnz Hspl Hroots Hedge.
  destruct (crossing_guards (of_Q psi) qs qmin q_axis Hhd Hneg)
    as [k [d [Hd [Hk E]]]].
  rewrite E, (Qltb_false _ _ Haxis). clear E.
  assert (Hdz : Qeq_bool d 0 = false).
  { apply Qeq_bool_false. apply nth_error_In in Hd.
    apply in_deviations in Hd. destruct Hd as [q [Hq ->]]. auto. }
  rewrite Hdz, Hspl. cbn [bind]. rewrite Hroots.
  assert (Hne : deviations qs qmin <> []) by (destruct qs; discriminate).
  rewrite (getlast_of_Q _ (0 - qmin) Hne), last_deviation. cbn [bind].
  rewrite fgtb_Fin, (Qltb_false _ _ Hedge). reflexivity.
Qed.

(** * Claims: the driver loops *)


(** A run in which the profiles come back with not-a-number and an
    infinite edge: the solver still receives [1, 0, 0]. *)
Example solver_inputs_scripted :
  map (fun c => prof_y (fst c))
      (dy_calls (exit_state
         (@basic_dynamo_w_bootstrap_loop nat
            (Scripted.tokamaker [Fin 1; NaN; PInf] 0 (Fin (102 # 100)))
            1 10 0%nat (of_Q [1; 1; 1]) (Some (Fin (1 # 5))) true [] [])))
  = [of_Q [1; 0; 0]; of_Q [1; 0; 0]].
Proof. vm_compute. reflexivity. Qed.






(** The scripted run of the witness: three iterations, then [break]. *)
Example bootstrap_loop_scripted :
  match @solve_with_bootstrap_loop nat
          (Scripted.tokamaker (of_Q [1; 2; 3]) 0 (Fin 3))
          2 10 0%nat (of_Q [1; 1; 1]) true
  with
  | Break s => bs_n s = 3%Z /\ bs_entered s = 3%nat /\ bs_self s = 3%nat
  | _ => False
  end.
Proof. vm_compute. auto. Qed.

(** * Further properties: the crossing solver *)

Lemma max_from_in (l : ndarray) : forall m, In (max_from m l) (m :: l).
Proof.
  induction l as [|x t IH]; intros m; cbn [max_from]; [left; reflexivity|].
  destruct (IH (if (x >? m)%f64 then x else m)) as [E | Hin].
  - destruct (x >? m)%f64; rewrite <- E; [right; left | left]; reflexivity.
  - right. right. exact Hin.
Qed.

Lemma py_max_in (a : ndarray) (v : float64) : py_max a = Ret v -> In v a.
Proof.
  destruct a as [|x t]; cbn [py_max]; [discriminate|].
  intros H. injection H as <-. apply max_from_in.
Qed.

Lemma interior_in (rts : ndarray) (x : float64) :
  In x (interior rts) ->
  (x >? Fin 0)%f64 = true /\ (x <? Fin 1)%f64 = true /\ In x rts.
Proof.
  unfold interior. intros H. apply filter_In in H. destruct H as [Hin H].
  apply andb_true_iff in H. tauto.
Qed.

Ltac crossing_cases :=
  repeat match goal with
         | H : Ret _ = Ret _ |- _ => injection H as ?; subst
         | H : false = true |- _ => discriminate H
         | H : None = Some _ |- _ => discriminate H
         | H : Some _ = Some _ |- _ => injection H as ?; subst
         | H : Raise _ = Ret _ |- _ => discriminate H
         | H : aborting _ = Ret _ |- _ => unfold aborting in H
         | H : bind ?m _ = Ret _ |- _ =>
             let E := fresh "E" in destruct m eqn:E; cbn [bind] in H
         | H : (if ?b then _ else _) = Ret _ |- _ =>
             let E := fresh "E" in destruct b eqn:E
         | H : match ?l with [] => _ | _ :: _ => _ end = Ret _ |- _ =>
             let E := fresh "E" in destruct l eqn:E
         end.

(** X1. Whatever the arrays and whatever the spline library answers, a
    returned triple is either [(False, None, None)] or
    [(True, location, index)] with an index inside [qvals]. *)
Theorem crossing_result_shape {scipy : Scipy}
        (psi qvals : ndarray) (qmin : float64)
        (log : list printed) (c : crossing) :
  solve_for_psi_crossing psi qvals qmin = Ret (log, c) ->
  c = (false, None, None)
  \/ exists l k, c = (true, Some l, Some k) /\ (k < length qvals)%nat.
Proof.
  unfold solve_for_psi_crossing. intros H.
  destruct (argmin (map (fun q => (q - qmin)%f64) qvals)) as [k1|] eqn:Ek1;
    cbn [bind] in H; [|discriminate].
  destruct (argmin (map fabs (map (fun q => (q - qmin)%f64) qvals)))
    as [k|] eqn:Ek; cbn [bind] in H; [|discriminate].
  assert (Hk : (k < length qvals)%nat).
  { apply argmin_in_range in Ek. rewrite !length_map in Ek. exact Ek. }
  crossing_cases; auto; right; eauto.
Qed.

Lemma crossing_result_shape_witness :
  (true, Some (Fin (2 # 3)), Some 2%nat) = (false, None, None)
  \/ exists l k, (true, Some (Fin (2 # 3)), Some 2%nat) = (true, Some l, Some k)
                 /\ Nat.lt k (length (of_Q [3 # 2; 1; 102 # 100; 3 # 2])).
Proof.
  apply (@crossing_result_shape SmallGrid.scipy (of_Q [0; 1 # 3; 2 # 3; 1])
           (of_Q [3 # 2; 1; 102 # 100; 3 # 2]) (Fin (102 # 100)) []).
  vm_compute. reflexivity.
Defined.

(** X2. A returned location is either the grid value [psi[k]] at a
    sample whose deviation from [qmin] is exactly zero, or a root the
    spline reported strictly between 0 and 1. *)
Theorem crossing_location_origin {scipy : Scipy}
        (psi qvals : ndarray) (qmin : float64)
        (log : list printed) (l : float64) (k : nat) :
  solve_for_psi_crossing psi qvals qmin = Ret (log, (true, Some l, Some k)) ->
  (getitem psi k = Ret l
   /\ exists d, getitem (map (fun q => (q - qmin)%f64) qvals) k = Ret d
                /\ (d =? Fin 0)%f64 = true)
  \/ ((l >? Fin 0)%f64 = true /\ (l <? Fin 1)%f64 = true
      /\ exists qcross_spln,
           CubicSpline psi (map (fun q => (q - qmin)%f64) qvals)
           = Ret qcross_spln
           /\ In l (roots qcross_spln)).
Proof.
  unfold solve_for_psi_crossing. intros H.
  crossing_cases; [left; split; [assumption|]; eauto | right ..].
  all: try match goal with
           | M : py_max _ = Ret _ |- _ => apply py_max_in in M
           end.
  all: match goal with
       | E : interior (roots ?s) = _ |- _ =>
           destruct (interior_in (roots s) l) as [? [? ?]];
           [rewrite E; first [assumption | left; reflexivity]|]
       end.
  all: split; [assumption|]; split; [assumption|].
  all: eexists; split; [reflexivity | assumption].
Qed.

Lemma crossing_location_origin_witness :
  (getitem (of_Q [0; 1 # 2; 1]) 1 = Ret (Fin (3 # 5))
   /\ exists d, getitem (map (fun q => (q - Fin (102 # 100))%f64)
                             (of_Q [3 # 2; 1; 3 # 2])) 1 = Ret d
                /\ (d =? Fin 0)%f64 = true)
  \/ ((Fin (3 # 5) >? Fin 0)%f64 = true /\ (Fin (3 # 5) <? Fin 1)%f64 = true
      /\ exists qcross_spln,
           CubicSpline (of_Q [0; 1 # 2; 1])
             (map (fun q => (q - Fin (102 # 100))%f64) (of_Q [3 # 2; 1; 3 # 2]))
           = Ret qcross_spln
           /\ In (Fin (3 # 5)) (@roots SmallGrid.scipy qcross_spln)).
Proof.
  apply (@crossing_location_origin SmallGrid.scipy (of_Q [0; 1 # 2; 1])
           (of_Q [3 # 2; 1; 3 # 2]) (Fin (102 # 100)) [Text msg_twice]).
  vm_compute. reflexivity.
Defined.

Lemma fabs_of_Q (ds : list Q) : map fabs (of_Q ds) = of_Q (map Qabs ds).
Proof. unfold of_Q. rewrite !map_map. reflexivity. Qed.

Lemma of_Q_finite (l : list Q) : forallb is_finite (of_Q l) = true.
Proof.
  unfold of_Q. rewrite forallb_forall. intros x Hx.
  apply in_map_iff in Hx. destruct Hx as [q [<- _]]. reflexivity.
Qed.

(** The sample nearest to the target has the least absolute deviation. *)
Lemma nearest_sample_least (ds : list Q) :
  ds <> [] ->
  exists k d, argmin (map fabs (of_Q ds)) = Ret k
              /\ nth_error ds k = Some d
              /\ forall y, In y ds -> Qabs d <= Qabs y.
Proof.
  intros Hne. rewrite fabs_of_Q.
  assert (Hne' : map Qabs ds <> []) by (destruct ds; [congruence|discriminate]).
  destruct (argmin_least _ Hne') as [k [m [Hk [Hm Hleast]]]].
  rewrite nth_error_map in Hm.
  destruct (nth_error ds k) as [d|] eqn:Ed; [|discriminate].
  injection Hm as <-. exists k, d. repeat split; auto.
  intros y Hy. apply Hleast. apply in_map. exact Hy.
Qed.

Section CrossingMore.

Context {scipy : Scipy}.

(** X3. When every sample of [q] lies above [qmin] the solver leaves at
    its first guard: nothing to change, [found = False]. *)
Theorem crossing_already_above (psi : ndarray) (qs : list Q) (qmin : Q) :
  qs <> [] ->
  (forall q, In q qs -> qmin < q) ->
  solve_for_psi_crossing psi (of_Q qs) (Fin qmin)
  = Ret ([Text msg_above], (false, None, None)).
Proof.
  intros Hne Habove.
  assert (Hne' : deviations qs qmin <> [])
    by (destruct qs; [congruence | discriminate]).
  destruct (argmin_least _ Hne') as [k1 [m [Hk1 [Hm Hleast]]]].
  destruct (nearest_sample _ Hne') as [k [d [Hk _]]].
  unfold solve_for_psi_crossing. rewrite qcross_of_Q, Hk1, Hk. cbn [bind].
  rewrite (getitem_of_Q _ _ _ Hm). cbn [bind].
  rewrite fgtb_Fin, Qltb_true; [reflexivity|].
  apply nth_error_In in Hm. apply in_deviations in Hm.
  destruct Hm as [q [Hq ->]]. specialize (Habove q Hq).
  clear - Habove. lra.
Qed.

(** X4. When a sample of [q] equals [qmin] exactly (and the profile is
    not reported hollow), the crossing is that grid point: the solver
    returns [found = True], the value of [psi] at an index [k] with
    [q[k] = qmin], and [k]; the spline is not consulted. *)
Theorem crossing_on_grid_point (psi : ndarray) (qs : list Q) (qmin q_axis : Q) :
  hd_error qs = Some q_axis ->
  q_axis - qmin <= qmin ->
  (exists q, In q qs /\ q == qmin) ->
  (length qs <= length psi)%nat ->
  exists k q l,
    nth_error qs k = Some q /\ q == qmin /\ nth_error psi k = Some l
    /\ solve_for_psi_crossing psi (of_Q qs) (Fin qmin)
       = Ret ([], (true, Some l, Some k)).
Proof.
  intros Hhd Haxis [q0 [Hq0 Hz]] Hlen.
  assert (Hneg : exists q, In q qs /\ q - qmin <= 0).
  { exists q0. split; [exact Hq0 | clear - Hz; lra]. }
  destruct (crossing_guards psi qs qmin q_axis Hhd Hneg)
    as [k [d [Hd [Hk E]]]].
  assert (Hne : deviations qs qmin <> [])
    by (destruct qs; [discriminate | discriminate]).
  destruct (nearest_sample_least _ Hne) as [k' [d' [Hk' [Hd' Hleast]]]].
  rewrite Hk in Hk'. injection Hk' as <-. rewrite Hd in Hd'.
  injection Hd' as <-.
  assert (Hdz : d == 0).
  { assert (H0 : Qabs d <= Qabs (q0 - qmin)).
    { apply Hleast. apply in_deviations. exists q0. auto. }
    assert (Hq : q0 - qmin == 0) by (clear - Hz; lra).
    rewrite Hq in H0. change (Qabs 0) with 0 in H0.
    pose proof (Qabs_nonneg d) as Hn.
    assert (Ha : Qabs d == 0) by (apply Qle_antisym; assumption).
    clear - Ha. revert Ha. apply Qabs_case; intros H1 H2; lra. }
  unfold deviations in Hd. rewrite nth_error_map in Hd.
  destruct (nth_error qs k) as [q|] eqn:Eq; [|discriminate].
  injection Hd as Hd.
  assert (Hkl : (k < length psi)%nat).
  { assert (nth_error qs k <> None) as Hs by congruence.
    apply nth_error_Some in Hs. lia. }
  destruct (nth_error psi k) as [l|] eqn:El;
    [|apply nth_error_None in El; lia].
  exists k, q, l. repeat split; auto.
  - rewrite <- Hd in Hdz. clear - Hdz. lra.
  - rewrite E, (Qltb_false _ _ Haxis).
    rewrite (proj2 (Qeq_bool_iff d 0) Hdz).
    unfold getitem. rewrite El. reflexivity.
Qed.

End CrossingMore.

Lemma crossing_already_above_witness :
  @solve_for_psi_crossing SmallGrid.scipy (of_Q [0; 1 # 2; 1])
    (of_Q [3 # 2; 3 # 2; 3 # 2]) (Fin (102 # 100))
  = Ret ([Text msg_above], (false, None, None)).
Proof.
  apply (@crossing_already_above SmallGrid.scipy (of_Q [0; 1 # 2; 1])
           [3 # 2; 3 # 2; 3 # 2] (102 # 100)).
  - discriminate.
  - intros q [<- | [<- | [<- | []]]]; reflexivity.
Defined.

Lemma crossing_on_grid_point_witness :
  exists k q l,
    nth_error [3 # 2; 1; 102 # 100; 3 # 2] k = Some q /\ q == 102 # 100
    /\ nth_error (of_Q [0; 1 # 3; 2 # 3; 1]) k = Some l
    /\ @solve_for_psi_crossing SmallGrid.scipy (of_Q [0; 1 # 3; 2 # 3; 1])
         (of_Q [3 # 2; 1; 102 # 100; 3 # 2]) (Fin (102 # 100))
       = Ret ([], (true, Some l, Some k)).
Proof.
  apply (@crossing_on_grid_point SmallGrid.scipy (of_Q [0; 1 # 3; 2 # 3; 1])
           [3 # 2; 1; 102 # 100; 3 # 2] (102 # 100) (3 # 2)).
  - reflexivity.
  - discriminate.
  - exists (102 # 100). split; [right; right; left; reflexivity | reflexivity].
  - cbn. lia.
Defined.

Section CrossingStages.

Context {scipy : Scipy}.

(** The solver past its three guards, with a fitted spline. *)
Lemma crossing_spline_stage (psi qs : list Q) (qmin q_axis : Q)
      (qcross_spln : spline) :
  hd_error qs = Some q_axis ->
  (exists q, In q qs /\ q - qmin <= 0) ->
  q_axis - qmin <= qmin ->
  (forall q, In q qs -> ~ q - qmin == 0) ->
  CubicSpline (of_Q psi) (of_Q (deviations qs qmin)) = Ret qcross_spln ->
  exists k,
    argmin (map fabs (of_Q (deviations qs qmin))) = Ret k /\
    solve_for_psi_crossing (of_Q psi) (of_Q qs) (Fin qmin) =
    match interior (roots qcross_spln) with
    | [] => aborting [Text msg_cannot]
    | [r0] => Ret ([], (true, Some r0, Some k))
    | [r0; r1] =>
        d_edge <- getlast (of_Q (deviations qs qmin)) ;;
        py_assert (d_edge >? Fin 0)%f64 ;;;
        far_and_deep <-
          (if ((r1 - r0) >? Fin (3 # 10))%f64
           then q_lowest <- py_min (of_Q qs) ;;
                Ret (q_lowest <? Fin qmin - Fin (1 # 10))%f64
           else Ret false) ;;
        if far_and_deep : bool
        then aborting [Repr [r0; r1]; Text msg_multi_b]
        else
          psicross <- py_max [r0; r1] ;;
          Ret ([Text msg_twice], (true, Some psicross, Some k))
    | [r0; r1; r2] =>
        if ((r2 - r0) >? Fin (3 # 10))%f64
        then aborting [Text msg_multi_c]
        else
          psicross <- py_max [r0; r1; r2] ;;
          Ret ([Text msg_thrice], (true, Some psicross, Some k))
    | _ => aborting [Text msg_multi_a]
    end.
Proof.
  intros Hhd Hneg Haxis Hnz Hspl.
  destruct (crossing_guards (of_Q psi) qs qmin q_axis Hhd Hneg)
    as [k [d [Hd [Hk E]]]].
  exists k. split; [exact Hk|].
  rewrite E, (Qltb_false _ _ Haxis).
  assert (Hdz : Qeq_bool d 0 = false).
  { apply Qeq_bool_false. apply nth_error_In in Hd.
    apply in_deviations in Hd. destruct Hd as [q [Hq ->]]. auto. }
  rewrite Hdz, Hspl. reflexivity.
Qed.

(** X5. How the number of interior roots decides, outside the two- and
    three-root cases: no root is a failure, a single root is the
    crossing, four or more roots are a failure. *)
Theorem root_count_policy (psi qs : list Q) (qmin q_axis : Q)
        (qcross_spln : spline) :
  hd_error qs = Some q_axis ->
  (exists q, In q qs /\ q - qmin <= 0) ->
  q_axis - qmin <= qmin ->
  (forall q, In q qs -> ~ q - qmin == 0) ->
  CubicSpline (of_Q psi) (of_Q (deviations qs qmin)) = Ret qcross_spln ->
  exists k,
    argmin (map fabs (of_Q (deviations qs qmin))) = Ret k
    /\ (interior (roots qcross_spln) = [] ->
        solve_for_psi_crossing (of_Q psi) (of_Q qs) (Fin qmin)
        = Ret ([Text msg_cannot], (false, None, None)))
    /\ (forall r, interior (roots qcross_spln) = [r] ->
        solve_for_psi_crossing (of_Q psi) (of_Q qs) (Fin qmin)
        = Ret ([], (true, Some r, Some k)))
    /\ (forall r0 r1 r2 r3 more,
        interior (roots qcross_spln) = r0 :: r1 :: r2 :: r3 :: more ->
        solve_for_psi_crossing (of_Q psi) (of_Q qs) (Fin qmin)
        = Ret ([Text msg_multi_a], (false, None, None))).
Proof.
  intros Hhd Hneg Haxis Hnz Hspl.
  destruct (crossing_spline_stage psi qs qmin q_axis qcross_spln
              Hhd Hneg Haxis Hnz Hspl) as [k [Hk E]].
  exists k. split; [exact Hk|]. rewrite E.
  split; [|split].
  - intros ->. reflexivity.
  - intros r ->. reflexivity.
  - intros r0 r1 r2 r3 more ->. reflexivity.
Qed.

(** X6. Three interior roots [r0 <= r1 <= r2]: the solver fails exactly
    when the outer two are more than [0.3] apart, and otherwise returns
    the largest root.  Neither the last deviation nor the depth of the
    dip is looked at here. *)
Theorem three_roots_policy (psi qs : list Q) (qmin q_axis r0 r1 r2 : Q)
        (qcross_spln : spline) :
  hd_error qs = Some q_axis ->
  (exists q, In q qs /\ q - qmin <= 0) ->
  q_axis - qmin <= qmin ->
  (forall q, In q qs -> ~ q - qmin == 0) ->
  CubicSpline (of_Q psi) (of_Q (deviations qs qmin)) = Ret qcross_spln ->
  interior (roots qcross_spln) = [Fin r0; Fin r1; Fin r2] ->
  r0 <= r1 -> r1 <= r2 ->
  exists log c,
    solve_for_psi_crossing (of_Q psi) (of_Q qs) (Fin qmin) = Ret (log, c)
    /\ (found c = false <-> 3 # 10 < r2 - r0)
    /\ (found c = true ->
        exists v, location c = Some (Fin v) /\ v == r2).
Proof.
  intros Hhd Hneg Haxis Hnz Hspl Hroots H01 H12.
  destruct (crossing_spline_stage psi qs qmin q_axis qcross_spln
              Hhd Hneg Haxis Hnz Hspl) as [k [Hk E]].
  rewrite E, Hroots. clear E.
  change ((Fin r2 - Fin r0) >? Fin (3 # 10))%f64 with (Qltb (3 # 10) (r2 - r0)).
  destruct (Qltb_spec (3 # 10) (r2 - r0)) as [Hfar | Hnear].
  - eexists _, _. split; [reflexivity|]. unfold found; cbn.
    split; [tauto | discriminate].
  - assert (Hmax : exists v, py_max [Fin r0; Fin r1; Fin r2] = Ret (Fin v)
                             /\ v == r2).
    { cbn. change (Fin r1 >? Fin r0)%f64 with (Qltb r0 r1).
      destruct (Qltb_spec r0 r1) as [Ha | Ha].
      - change (Fin r2 >? Fin r1)%f64 with (Qltb r1 r2).
        destruct (Qltb_spec r1 r2) as [Hb | Hb]; eexists; split;
          try reflexivity. apply Qle_antisym; [exact H12|].
        apply Qnot_lt_le. exact Hb.
      - change (Fin r2 >? Fin r0)%f64 with (Qltb r0 r2).
        destruct (Qltb_spec r0 r2) as [Hb | Hb]; eexists; split;
          try reflexivity.
        apply Qle_antisym; [apply Qle_trans with r1; assumption|].
        apply Qnot_lt_le. exact Hb. }
    destruct Hmax as [v [Hmax Hv]]. rewrite Hmax. cbn [bind].
    eexists _, _. split; [reflexivity|]. unfold found, location; cbn.
    split; [split; [discriminate | intros; contradiction]|].
    intros _. exists v. auto.
Qed.

End CrossingStages.

Lemma root_count_policy_witness :
  exists k,
    argmin (map fabs (of_Q (deviations [2; 1] (102 # 100)))) = Ret k
    /\ (interior (@roots SmallGrid.scipy
                    {| knots := of_Q [0; 1];
                       values := of_Q (deviations [2; 1] (102 # 100)) |}) = [] ->
        @solve_for_psi_crossing SmallGrid.scipy (of_Q [0; 1]) (of_Q [2; 1])
          (Fin (102 # 100))
        = Ret ([Text msg_cannot], (false, None, None)))
    /\ (forall r,
        interior (@roots SmallGrid.scipy
                    {| knots := of_Q [0; 1];
                       values := of_Q (deviations [2; 1] (102 # 100)) |}) = [r] ->
        @solve_for_psi_crossing SmallGrid.scipy (of_Q [0; 1]) (of_Q [2; 1])
          (Fin (102 # 100))
        = Ret ([], (true, Some r, Some k)))
    /\ (forall r0 r1 r2 r3 more,
        interior (@roots SmallGrid.scipy
                    {| knots := of_Q [0; 1];
                       values := of_Q (deviations [2; 1] (102 # 100)) |})
        = r0 :: r1 :: r2 :: r3 :: more ->
        @solve_for_psi_crossing SmallGrid.scipy (of_Q [0; 1]) (of_Q [2; 1])
          (Fin (102 # 100))
        = Ret ([Text msg_multi_a], (false, None, None))).
Proof.
  apply (@root_count_policy SmallGrid.scipy [0; 1] [2; 1] (102 # 100) 2
           {| knots := of_Q [0; 1];
              values := of_Q (deviations [2; 1] (102 # 100)) |}).
  - reflexivity.
  - exists 1. split; [right; left; reflexivity | discriminate].
  - discriminate.
  - intros q [<- | [<- | []]] H; discriminate H.
  - vm_compute. reflexivity.
Defined.

(** The profile [q = 2 - psi] crosses [1.02] once, at [psi = 0.98]. *)
Example single_crossing_located :
  @solve_for_psi_crossing SmallGrid.scipy (of_Q [0; 1]) (of_Q [2; 1])
    (Fin (102 # 100))
  = Ret ([], (true, Some (Fin (49 # 50)), Some 1%nat)).
Proof. vm_compute. reflexivity. Qed.

Lemma three_roots_policy_witness :
  exists log c,
    @solve_for_psi_crossing
      (ScriptedScipy.answering (of_Q [2 # 5; 1 # 2; 3 # 5]) (Fin 0))
      (of_Q [0; 1 # 2; 1]) (of_Q [1; 1; 3 # 2]) (Fin (102 # 100))
    = Ret (log, c)
    /\ (found c = false <-> 3 # 10 < (3 # 5) - (2 # 5))
    /\ (found c = true -> exists v, location c = Some (Fin v) /\ v == 3 # 5).
Proof.
  apply (@three_roots_policy
           (ScriptedScipy.answering (of_Q [2 # 5; 1 # 2; 3 # 5]) (Fin 0))
           [0; 1 # 2; 1] [1; 1; 3 # 2] (102 # 100) 1 (2 # 5) (1 # 2) (3 # 5)
           {| knots := of_Q [0; 1 # 2; 1];
              values := of_Q (deviations [1; 1; 3 # 2] (102 # 100)) |}).
  - reflexivity.
  - exists 1. split; [left; reflexivity | discriminate].
  - discriminate.
  - intros q [<- | [<- | [<- | []]]] H; discriminate H.
  - vm_compute. reflexivity.
  - vm_compute. reflexivity.
  - discriminate.
  - discriminate.
Defined.

Lemma CubicSpline_accepts (x y : list Q) :
  (2 <= length x)%nat -> length x = length y ->
  strictly_increasing (of_Q x) = true ->
  CubicSpline (of_Q x) (of_Q y)
  = Ret {| knots := of_Q x; values := of_Q y |}.
Proof.
  intros H2 Hlen Hinc. unfold CubicSpline.
  rewrite !of_Q_length, !of_Q_finite, Hinc, <- Hlen, Nat.eqb_refl.
  rewrite (proj2 (Nat.leb_le 2 (length x)) H2). reflexivity.
Qed.



(** * Further properties: flux-surface integral and rescaling *)

Lemma zip_fmul_of_Q (a p : list Q) :
  zip_with fmul (of_Q a) (of_Q p) = of_Q (products a p).
Proof.
  revert p. induction a as [|x a IH]; intros [|y p]; try reflexivity.
  unfold of_Q, products in *. cbn [map zip_with combine fst snd].
  rewrite IH. reflexivity.
Qed.

Lemma products_length (a p : list Q) :
  length a = length p -> length (products a p) = length a.
Proof.
  intros H. unfold products. rewrite length_map, length_combine. lia.
Qed.

Lemma increasing_cons (x y : Q) (t : list Q) :
  strictly_increasing (of_Q (x :: y :: t)) = true
  <-> x < y /\ strictly_increasing (of_Q (y :: t)) = true.
Proof.
  unfold of_Q. cbn [map]. cbn [strictly_increasing]. fold strictly_increasing.
  change (Fin x <? Fin y)%f64 with (Qltb x y).
  rewrite andb_true_iff. destruct (Qltb_spec x y); intuition discriminate.
Qed.

Lemma increasing_skip (x y : Q) (t : list Q) :
  strictly_increasing (of_Q (x :: y :: t)) = true ->
  strictly_increasing (of_Q (x :: t)) = true.
Proof.
  intros H. apply increasing_cons in H. destruct H as [Hxy H].
  destruct t as [|z t]; [reflexivity|].
  apply increasing_cons in H. destruct H as [Hyz H].
  apply increasing_cons. split; [|exact H].
  apply Qlt_trans with y; assumption.
Qed.

Lemma min_from_increasing (t : list Q) : forall x,
  strictly_increasing (of_Q (x :: t)) = true ->
  min_from (Fin x) (of_Q t) = Fin x.
Proof.
  induction t as [|y t IH]; intros x H; [reflexivity|].
  pose proof (increasing_skip _ _ _ H) as Hskip.
  apply increasing_cons in H. destruct H as [Hxy _].
  unfold of_Q. cbn [map min_from]. fold (of_Q t).
  change (Fin y <? Fin x)%f64 with (Qltb y x).
  rewrite Qltb_false by (apply Qlt_le_weak; exact Hxy).
  apply IH. exact Hskip.
Qed.

Lemma max_from_increasing (t : list Q) : forall x,
  strictly_increasing (of_Q (x :: t)) = true ->
  max_from (Fin x) (of_Q t) = Fin (last t x).
Proof.
  induction t as [|y t IH]; intros x H; [reflexivity|].
  apply increasing_cons in H. destruct H as [Hxy Hinc].
  unfold of_Q. cbn [map max_from]. fold (of_Q t).
  change (Fin y >? Fin x)%f64 with (Qltb x y).
  rewrite (Qltb_true _ _ Hxy), (IH y Hinc).
  f_equal. symmetry. apply last_cons_default.
Qed.

Section RescalingMore.

Context {scipy : Scipy}.

Lemma surf_int_accepts (profile a_avgs : list Q) :
  length profile = length a_avgs ->
  (2 <= length a_avgs)%nat ->
  strictly_increasing (of_Q a_avgs) = true ->
  cross_section_surf_int (of_Q profile) (of_Q a_avgs)
  = Ret (Fin 2 * Fin numpy_pi
         * integrate (integrand_spline a_avgs profile)
                     (Fin (hd 0 a_avgs)) (Fin (last a_avgs 0)))%f64.
Proof.
  intros Hlen H2 Hinc. unfold cross_section_surf_int.
  rewrite broadcast_same by (rewrite !of_Q_length; congruence).
  cbn [bind]. rewrite zip_fmul_of_Q.
  rewrite CubicSpline_accepts; auto;
    [|rewrite products_length; congruence].
  cbn [bind]. destruct a_avgs as [|x t]; [cbn in H2; lia|].
  unfold of_Q at 1 2. cbn [map py_min py_max bind]. fold (of_Q t).
  rewrite (min_from_increasing t x Hinc), (max_from_increasing t x Hinc).
  cbn [bind hd]. rewrite (last_cons_default t x 0). reflexivity.
Qed.


(** X9. [rescale_Jtor] fails exactly when the flux-surface integral of
    its input fails, with the same exception; the division itself never
    raises. *)
Theorem rescale_fails_like_integral
        (jtor_total : ndarray) (Ip_target : float64) (a_avgs : ndarray)
        (e : exn) :
  rescale_Jtor jtor_total Ip_target a_avgs = Raise e
  <-> cross_section_surf_int jtor_total a_avgs = Raise e.
Proof.
  unfold rescale_Jtor, cross_section_surf_int.
  destruct (broadcast fmul a_avgs jtor_total) as [y|e1]; cbn [bind];
    [|split; intros H; injection H as ->; reflexivity].
  destruct (CubicSpline a_avgs y) as [s|e1]; cbn [bind];
    [|split; intros H; injection H as ->; reflexivity].
  destruct (py_min a_avgs) as [lo|e1]; cbn [bind];
    [|split; intros H; injection H as ->; reflexivity].
  destruct (py_max a_avgs) as [hi|e1]; cbn [bind];
    [|split; intros H; injection H as ->; reflexivity].
  split; discriminate.
Qed.

(** X10. Rescaling reaches its target.  Provided the spline integral
    scales with the samples on this data (the integral of the rescaled
    integrand is the factor times the integral of the original one), the
    flux-surface integral of the profile returned by [rescale_Jtor] is
    the target current. *)
Theorem rescale_attains_target (jtor a_avgs : list Q) (target I I' : Q) :
  length jtor = length a_avgs ->
  (2 <= length a_avgs)%nat ->
  strictly_increasing (of_Q a_avgs) = true ->
  integrate (integrand_spline a_avgs jtor)
            (Fin (hd 0 a_avgs)) (Fin (last a_avgs 0)) = Fin I ->
  integrate (integrand_spline a_avgs
               (map (fun j => j * (target / (2 * numpy_pi * I))) jtor))
            (Fin (hd 0 a_avgs)) (Fin (last a_avgs 0)) = Fin I' ->
  I' == target / (2 * numpy_pi * I) * I ->
  ~ 2 * numpy_pi * I == 0 ->
  exists rescaled factor current,
    rescale_Jtor (of_Q jtor) (Fin target) (of_Q a_avgs)
    = Ret (of_Q rescaled, Fin factor)
    /\ cross_section_surf_int (of_Q rescaled) (of_Q a_avgs) = Ret (Fin current)
    /\ current == target.
Proof.
  intros Hlen H2 Hinc HI HI' Hhom Hnz.
  pose proof (surf_int_accepts jtor a_avgs Hlen H2 Hinc) as Hint.
  rewrite HI in Hint.
  change (Fin 2 * Fin numpy_pi * Fin I)%f64
    with (Fin (2 * numpy_pi * I)) in Hint.
  exists (map (fun j => j * (target / (2 * numpy_pi * I))) jtor),
         (target / (2 * numpy_pi * I)), (2 * numpy_pi * I').
  split; [|split].
  - rewrite (rescale_Jtor_unfold _ _ _ _ Hint), (fdiv_Fin _ _ Hnz).
    unfold of_Q. rewrite !map_map. reflexivity.
  - rewrite surf_int_accepts; auto; [|rewrite length_map; exact Hlen].
    rewrite HI'. reflexivity.
  - rewrite Hhom. field. split; intros E; apply Hnz; rewrite E; ring.
Qed.

End RescalingMore.


Lemma rescale_attains_target_witness :
  exists rescaled factor current,
    @rescale_Jtor SmallGrid.scipy (of_Q UnitProfile.jtor)
      (Fin UnitProfile.target) (of_Q UnitProfile.a_avgs)
    = Ret (of_Q rescaled, Fin factor)
    /\ @cross_section_surf_int SmallGrid.scipy (of_Q rescaled)
         (of_Q UnitProfile.a_avgs) = Ret (Fin current)
    /\ current == UnitProfile.target.
Proof.
  apply (@rescale_attains_target SmallGrid.scipy UnitProfile.jtor
           UnitProfile.a_avgs UnitProfile.target UnitProfile.integral
           UnitProfile.rescaled_integral).
  - reflexivity.
  - cbn. lia.
  - reflexivity.
  - vm_compute. reflexivity.
  - vm_compute. reflexivity.
  - vm_compute. reflexivity.
  - intros H. vm_compute in H. discriminate H.
Defined.

(** * Further properties: flux-function conversion *)

Lemma jtor_samples_length (mu0 : Q) (ffprime : list Q) : forall pprime R_avg oRa,
  length pprime = length ffprime -> length R_avg = length ffprime ->
  length oRa = length ffprime ->
  length (jtor_samples mu0 ffprime pprime R_avg oRa) = length ffprime.
Proof.
  induction ffprime as [|f fs IH]; intros [|p ps] [|R Rs] [|o os] Hp HR Ho;
    simpl in *; try discriminate; auto.
Qed.

Lemma samples_round_trip_back (mu0 : Q) (ffprime : list Q) :
  forall pprime R_avg oRa,
  length pprime = length ffprime -> length R_avg = length ffprime ->
  length oRa = length ffprime ->
  ~ mu0 == 0 -> Forall (fun o => ~ o == 0) oRa ->
  Forall2 Qeq
    (ffprime_samples mu0 (jtor_samples mu0 ffprime pprime R_avg oRa)
                     pprime R_avg oRa)
    ffprime.
Proof.
  induction ffprime as [|f fs IH]; intros [|p ps] [|R Rs] [|o os] Hp HR Ho Hmu Hnz;
    simpl in *; try discriminate; auto.
  inversion Hnz; subst. constructor.
  - unfold ffprime_sample, jtor_sample. field. auto.
  - apply IH; auto.
Qed.

(** X11. The round trip in the other direction: reading a current from
    [FF'] and writing [FF'] from that current gives [FF'] again, sample
    by sample, for non-zero [mu0] and [one_over_R_avg]. *)
Theorem conversion_round_trip_back (mu0 : Q)
        (ffprime pprime R_avg one_over_R_avg : list Q) :
  length pprime = length ffprime ->
  length R_avg = length ffprime ->
  length one_over_R_avg = length ffprime ->
  ~ mu0 == 0 ->
  Forall (fun o => ~ o == 0) one_over_R_avg ->
  exists back : list Q,
    (jtor <- jtor_from_ffprime_pprime mu0 (of_Q ffprime) (of_Q pprime)
               (of_Q R_avg) (of_Q one_over_R_avg) ;;
     ffprime_from_jtor_pprime mu0 jtor (of_Q pprime) (of_Q R_avg)
                              (of_Q one_over_R_avg))
    = Ret (of_Q back)
    /\ Forall2 Qeq back ffprime.
Proof.
  intros Hp HR Ho Hmu Hnz.
  exists (ffprime_samples mu0
            (jtor_samples mu0 ffprime pprime R_avg one_over_R_avg)
            pprime R_avg one_over_R_avg).
  split.
  - rewrite jtor_on_finite by auto. cbn [bind].
    pose proof (jtor_samples_length mu0 ffprime pprime R_avg one_over_R_avg
                  Hp HR Ho) as Hlen.
    apply ffprime_on_finite; auto; congruence.
  - apply samples_round_trip_back; auto.
Qed.

Lemma conversion_round_trip_back_witness :
  exists back : list Q,
    (jtor <- jtor_from_ffprime_pprime (1256637 # 1000000000000)
               (of_Q [3; 4]) (of_Q [1; 1]) (of_Q [2; 2])
               (of_Q [1 # 2; 1 # 4]) ;;
     ffprime_from_jtor_pprime (1256637 # 1000000000000) jtor
       (of_Q [1; 1]) (of_Q [2; 2]) (of_Q [1 # 2; 1 # 4]))
    = Ret (of_Q back)
    /\ Forall2 Qeq back [3; 4].
Proof.
  apply (conversion_round_trip_back (1256637 # 1000000000000)
           [3; 4] [1; 1] [2; 2] [1 # 2; 1 # 4]); try reflexivity.
  - intros H; discriminate H.
  - repeat constructor; intros H; discriminate H.
Defined.

Lemma broadcast_mismatch op (xs ys : ndarray) :
  length xs <> length ys -> length xs <> 1%nat -> length ys <> 1%nat ->
  broadcast op xs ys = Raise ValueError.
Proof.
  intros Hne Hx Hy. unfold broadcast.
  rewrite (proj2 (Nat.eqb_neq _ _) Hne).
  destruct xs as [|x [|x' xs]]; destruct ys as [|y [|y' ys]];
    cbn in *; congruence.
Qed.

(** X12. Arrays that cannot be broadcast are refused: when [pprime] and
    [R_avg] differ in length and neither has length one, both
    conversions raise [ValueError], whatever the other arguments. *)
Theorem conversion_shape_mismatch (mu0 : Q)
        (jtor pprime R_avg one_over_R_avg : ndarray) :
  length pprime <> length R_avg ->
  length pprime <> 1%nat ->
  length R_avg <> 1%nat ->
  ffprime_from_jtor_pprime mu0 jtor pprime R_avg one_over_R_avg
  = Raise ValueError
  /\ jtor_from_ffprime_pprime mu0 jtor pprime R_avg one_over_R_avg
     = Raise ValueError.
Proof.
  intros Hne Hp HR.
  unfold ffprime_from_jtor_pprime, jtor_from_ffprime_pprime.
  rewrite broadcast_mismatch; rewrite ?length_map; auto.
Qed.

Lemma conversion_shape_mismatch_witness :
  ffprime_from_jtor_pprime 1 (of_Q [3; 4; 5]) (of_Q [1; 1]) (of_Q [2; 2; 2])
                           (of_Q [1; 1; 1])
  = Raise ValueError
  /\ jtor_from_ffprime_pprime 1 (of_Q [3; 4; 5]) (of_Q [1; 1]) (of_Q [2; 2; 2])
                              (of_Q [1; 1; 1])
     = Raise ValueError.
Proof.
  apply (conversion_shape_mismatch 1 (of_Q [3; 4; 5]) (of_Q [1; 1])
           (of_Q [2; 2; 2]) (of_Q [1; 1; 1])); cbn; lia.
Defined.

Lemma nth_error_zip_with op (xs : ndarray) : forall ys i,
  nth_error (zip_with op xs ys) i
  = match nth_error xs i, nth_error ys i with
    | Some x, Some y => Some (op x y)
    | _, _ => None
    end.
Proof.
  induction xs as [|x xs IH]; intros [|y ys] [|i]; cbn [zip_with nth_error];
    try reflexivity.
  - destruct (nth_error xs i); reflexivity.
  - apply IH.
Qed.

Lemma zip_with_length_min op (xs : ndarray) : forall ys,
  length (zip_with op xs ys) = Nat.min (length xs) (length ys).
Proof.
  induction xs as [|x xs IH]; intros [|y ys]; cbn [zip_with length Nat.min];
    auto.
Qed.

Lemma times_non_finite (t : Q) (x : float64) :
  is_finite x = false -> is_finite (Fin t * x)%f64 = false.
Proof.
  destruct x as [q| | |]; cbn; try discriminate; intros _;
    destruct (Qeq_bool t 0); try reflexivity;
    unfold inf_of_sign; destruct (Qltb t 0); reflexivity.
Qed.

(** X13. A zero in [one_over_R_avg] raises nothing: on finite arrays of
    one length [ffprime_from_jtor_pprime] still returns, and the sample
    at the index of the zero is an infinity or not-a-number. *)
Theorem ffprime_zero_divisor (mu0 : Q)
        (jtor pprime R_avg one_over_R_avg : list Q) (i : nat) (o : Q) :
  length pprime = length jtor ->
  length R_avg = length jtor ->
  length one_over_R_avg = length jtor ->
  nth_error one_over_R_avg i = Some o ->
  o == 0 ->
  exists ffprime v,
    ffprime_from_jtor_pprime mu0 (of_Q jtor) (of_Q pprime) (of_Q R_avg)
                             (of_Q one_over_R_avg)
    = Ret ffprime
    /\ length ffprime = length jtor
    /\ nth_error ffprime i = Some v
    /\ is_finite v = false.
Proof.
  intros Hp HR Ho Hi Hz. unfold ffprime_from_jtor_pprime.
  rewrite broadcast_same by (rewrite length_map, !of_Q_length; congruence).
  cbn [bind].
  rewrite broadcast_same
    by (rewrite zip_with_length, !of_Q_length;
        rewrite ?length_map, ?of_Q_length; congruence).
  cbn [bind].
  rewrite broadcast_same
    by (rewrite length_map, !zip_with_length, !of_Q_length;
        rewrite ?length_map, ?of_Q_length, ?zip_with_length;
        rewrite ?length_map, ?of_Q_length; congruence).
  assert (Hil : (i < length jtor)%nat).
  { assert (nth_error one_over_R_avg i <> None) as Hs by congruence.
    apply nth_error_Some in Hs. lia. }
  destruct (nth_error jtor i) as [j|] eqn:Ej;
    [|apply nth_error_None in Ej; lia].
  destruct (nth_error pprime i) as [p|] eqn:Ep;
    [|apply nth_error_None in Ep; lia].
  destruct (nth_error R_avg i) as [R|] eqn:ER;
    [|apply nth_error_None in ER; lia].
  eexists. exists (Fin (j - R * (- p)) * (Fin mu0 / Fin o))%f64.
  split; [reflexivity|]. split; [|split].
  - repeat rewrite ?zip_with_length_min, ?length_map, ?of_Q_length. lia.
  - rewrite !nth_error_zip_with. unfold of_Q.
    rewrite !nth_error_map, Ej, Ep, ER, Hi. reflexivity.
  - apply times_non_finite. apply fdiv_by_zero_not_finite. exact Hz.
Qed.

Lemma ffprime_zero_divisor_witness :
  exists ffprime v,
    ffprime_from_jtor_pprime 1 (of_Q [3; 4]) (of_Q [1; 1]) (of_Q [2; 2])
                             (of_Q [1 # 2; 0])
    = Ret ffprime
    /\ length ffprime = 2%nat
    /\ nth_error ffprime 1 = Some v
    /\ is_finite v = false.
Proof.
  apply (ffprime_zero_divisor 1 [3; 4] [1; 1] [2; 2] [1 # 2; 0] 1 0);
    reflexivity.
Defined.

(** * Further properties: the driver loops *)

Section DriversMoreFacts.

Context {gs : Type} {tokamaker : TokaMaker gs}.

Variable max_iterations : Z.

Lemma dy_loop_exit : forall (fuel : nat) (s : dy_state gs),
  (0 <= dy_n s <= max_iterations)%Z ->
  Z.of_nat (dy_entered s) = dy_n s ->
  (max_iterations + 1 - dy_n s <= Z.of_nat fuel)%Z ->
  dy_good_exit max_iterations
    (while_loop (dy_cond max_iterations) (dy_body max_iterations) fuel s).
Proof.
  induction fuel as [|fuel IH]; intros s Hn Hent Hfuel; cbn [while_loop];
    unfold dy_cond; rewrite (proj2 (Z.leb_le _ _) (proj2 Hn)).
  - cbn [Z.of_nat] in Hfuel. lia.
  - unfold dy_body, dy_body_core. cbn [dy_enter dy_self
      dy_inductive_jtor dy_rescale_ind_Jtor_by_ftr dy_n dy_calls dy_entered
      dy_q_1_psi_location dy_q0_vals dy_q1_psi_surf].
    destruct (dynamo_profile_iteration _ _ _ _ _) as [it|ex]; cbn [bind];
      [|cbn; lia].
    destruct (setlast (prof_y (pp_prof (base it))) _) as [pp_y|ex];
      cbn [bind]; [|cbn; lia].
    destruct (setlast (prof_y (ffp_prof (base it))) _) as [ffp_y|ex];
      cbn [bind]; [|cbn; lia].
    cbv zeta. destruct (solve _) as [self2 flag].
    destruct (py_len _) as [npsi|ex]; cbn [bind]; [|cbn; lia].
    destruct (getitem _ 0) as [q_axis|ex]; cbn [bind]; [|cbn; lia].
    destruct (Z.ltb_spec flag 0); [cbn; lia|].
    rewrite (proj2 (Z.geb_le flag 0)) by lia. rewrite !andb_true_r.
    destruct (q0_in_band q_axis) eqn:Eband; [cbn; lia|].
    destruct (Z.gtb_spec (dy_n s + 1) max_iterations); [cbn; lia|].
    destruct (Z.gtb_spec (dy_n s + 1) (max_iterations + 1)); [lia|].
    apply IH; cbn [dy_n dy_entered]; lia.
Qed.

(** X14. The dynamo loop is bounded too.  For [max_iterations >= 0] and
    enough unrolling it is left by one of its two [break]s, by the
    [return] after a failed solve or by an exception of the iteration;
    its body is entered at most [max_iterations + 1] times and the
    [raise] of 'did not converge' is never reached.  The [break] at the
    iteration bound is taken only with the last [q0] outside the band. *)
Theorem dynamo_loop_bounded
        (fuel : nat) (self : gs) (jtor : ndarray) (q1 : option float64)
        (rescale : bool) (q0s : list float64) (q1s : list (option float64)) :
  (0 <= max_iterations)%Z ->
  (max_iterations + 1 <= Z.of_nat fuel)%Z ->
  (Z.of_nat (dy_entered (exit_state
      (basic_dynamo_w_bootstrap_loop max_iterations fuel self jtor q1 rescale
                                     q0s q1s)))
   <= max_iterations + 1)%Z
  /\ (forall s, basic_dynamo_w_bootstrap_loop max_iterations fuel self jtor q1
                  rescale q0s q1s <> DidNotConverge s)
  /\ (forall s, basic_dynamo_w_bootstrap_loop max_iterations fuel self jtor q1
                  rescale q0s q1s <> OutOfFuel s)
  /\ (forall s, basic_dynamo_w_bootstrap_loop max_iterations fuel self jtor q1
                  rescale q0s q1s <> Exhausted s)
  /\ (forall s, basic_dynamo_w_bootstrap_loop max_iterations fuel self jtor q1
                  rescale q0s q1s = Break s ->
                dy_n s = (max_iterations + 1)%Z /\ dy_flag_end s = false)
  /\ (forall s, basic_dynamo_w_bootstrap_loop max_iterations fuel self jtor q1
                  rescale q0s q1s = BreakQ0 s ->
                (dy_n s <= max_iterations + 1)%Z /\ dy_flag_end s = true).
Proof.
  intros Hmax Hfuel. unfold basic_dynamo_w_bootstrap_loop.
  pose proof (dy_loop_exit fuel (dy_init self jtor q1 rescale q0s q1s))
    as Hexit.
  cbn [dy_init dy_n dy_entered Z.of_nat] in Hexit.
  specialize (Hexit ltac:(lia) eq_refl ltac:(lia)).
  split; [|split; [|split; [|split; [|split]]]].
  - destruct (while_loop _ _ _ _); cbn in *; lia.
  - intros s E. rewrite E in Hexit. exact Hexit.
  - intros s E. rewrite E in Hexit. exact Hexit.
  - intros s E. rewrite E in Hexit. exact Hexit.
  - intros s E. rewrite E in Hexit. cbn in Hexit. tauto.
  - intros s E. rewrite E in Hexit. cbn in Hexit. tauto.
Qed.

(** X15. A failed solve ends the plain loop at once: when an
    iteration's solve returns a negative flag, the loop returns in that
    iteration with this flag, after the one [set_profiles] call of the
    iteration. *)
Theorem bootstrap_solve_failure_returns
        (s : bs_state gs) (it : iteration) (pp_y ffp_y : ndarray)
        (self2 : gs) (flag : Z) (fuel : nat) :
  (bs_n s <= max_iterations)%Z ->
  profile_iteration (bs_self s) (bs_inductive_jtor s)
                    (bs_rescale_ind_Jtor_by_ftr s) = Ret it ->
  setlast (prof_y (pp_prof it)) (Fin 0) = Ret pp_y ->
  setlast (prof_y (ffp_prof it)) (Fin 0) = Ret ffp_y ->
  solve (set_profiles (bs_self s)
           (set_y (ffp_prof it) (nan_to_num ffp_y))
           (set_y (pp_prof it) (nan_to_num pp_y))) = (self2, flag) ->
  (flag < 0)%Z ->
  exists s',
    while_loop (bs_cond max_iterations) (bs_body max_iterations) (S fuel) s
    = SolveFailed s'
    /\ bs_flag s' = flag /\ bs_self s' = self2
    /\ bs_entered s' = S (bs_entered s)
    /\ bs_calls s'
       = bs_calls s ++ [(set_y (ffp_prof it) (nan_to_num ffp_y),
                         set_y (pp_prof it) (nan_to_num pp_y))].
Proof.
  intros Hn Hit Hpp Hffp Hsolve Hflag.
  cbn [while_loop]. unfold bs_cond at 1. rewrite (proj2 (Z.leb_le _ _) Hn).
  unfold bs_body, bs_body_core. cbn [bs_enter bs_self
    bs_inductive_jtor bs_rescale_ind_Jtor_by_ftr bs_n bs_calls bs_entered].
  rewrite Hit. cbn [bind]. rewrite Hpp, Hffp. cbn [bind]. cbv zeta.
  rewrite Hsolve. rewrite (proj2 (Z.ltb_lt flag 0) Hflag).
  eexists. split; [reflexivity|]. cbn. auto.
Qed.


End DriversMoreFacts.

Lemma while_loop_unfold {S : Type} (cond : S -> bool) (body : S -> step S)
      (fuel : nat) (s : S) :
  cond s = true ->
  while_loop cond body (Datatypes.S fuel) s
  = match body s with
    | Continue s' => while_loop cond body fuel s'
    | Exit e => e
    end.
Proof. intros H. cbn [while_loop]. rewrite H. reflexivity. Qed.

Lemma while_loop_skipped {S : Type} (cond : S -> bool) (body : S -> step S)
      (fuel : nat) (s : S) :
  cond s = false -> while_loop cond body fuel s = Exhausted s.
Proof. intros H. destruct fuel; cbn [while_loop]; rewrite H; reflexivity. Qed.

Lemma while_trace_all {S : Type} (P : S -> Prop)
      (cond : S -> bool) (body : S -> step S) :
  (forall s, match body s with Continue s' => P s' | Exit _ => True end) ->
  forall fuel s, P s -> Forall P (while_trace cond body fuel s).
Proof.
  intros Hbody. induction fuel as [|fuel IH]; intros s Hs; cbn [while_trace].
  - destruct (cond s); constructor.
  - destruct (cond s); [|constructor]. constructor; [exact Hs|].
    specialize (Hbody s). destruct (body s) as [s'|e]; [|constructor].
    apply IH. exact Hbody.
Qed.

Lemma while_trace_tail {S : Type} (P : S -> Prop)
      (cond : S -> bool) (body : S -> step S) :
  (forall s, match body s with Continue s' => P s' | Exit _ => True end) ->
  forall fuel s, Forall P (tl (while_trace cond body fuel s)).
Proof.
  intros Hbody fuel s. destruct fuel as [|fuel]; cbn [while_trace].
  - destruct (cond s); constructor.
  - destruct (cond s); [|constructor]. cbn [tl].
    pose proof (Hbody s) as Hs. destruct (body s) as [s'|e]; [|constructor].
    apply while_trace_all; assumption.
Qed.

Section DriverInvariants.

Context {gs : Type} {tokamaker : TokaMaker gs}.

Variable max_iterations : Z.

(** X17. With a negative [max_iterations] neither loop body runs:
    nothing is passed to the solver, the solver object is untouched, and
    the loop is left with [flag] still at the [-1] it was initialised
    with, the code [error_reason] reads as 'Exceeded maxits'. *)
Theorem loops_skipped_when_negative
        (fuel : nat) (self : gs) (jtor : ndarray) (q1 : option float64)
        (rescale : bool) (q0s : list float64) (q1s : list (option float64)) :
  (max_iterations < 0)%Z ->
  (exists s, solve_with_bootstrap_loop max_iterations fuel self jtor rescale
             = Exhausted s
             /\ bs_flag s = (-1)%Z /\ bs_calls s = [] /\ bs_self s = self
             /\ bs_entered s = 0%nat)
  /\ (exists s, basic_dynamo_w_bootstrap_loop max_iterations fuel self jtor q1
                  rescale q0s q1s = Exhausted s
                /\ dy_flag s = (-1)%Z /\ dy_calls s = [] /\ dy_self s = self
                /\ dy_entered s = 0%nat /\ dy_q0_vals s = q0s).
Proof.
  intros Hneg. split.
  - eexists. split.
    + apply while_loop_skipped. unfold bs_cond, bs_init. cbn [bs_n].
      apply Z.leb_gt. exact Hneg.
    + cbn. auto.
  - eexists. split.
    + apply while_loop_skipped. unfold dy_cond, dy_init. cbn [dy_n].
      apply Z.leb_gt. exact Hneg.
    + cbn. repeat split; reflexivity.
Qed.




Lemma bs_body_rescale (s : bs_state gs) :
  match bs_body max_iterations s with
  | Continue s' => bs_rescale_ind_Jtor_by_ftr s' = false
  | Exit _ => True
  end.
Proof.
  unfold bs_body, bs_body_core. case_body; auto.
Qed.

Lemma dy_body_rescale (s : dy_state gs) :
  match dy_body max_iterations s with
  | Continue s' => dy_rescale_ind_Jtor_by_ftr s' = false
  | Exit _ => True
  end.
Proof.
  unfold dy_body, dy_body_core. case_body; auto.
Qed.

Lemma bs_body_entered (s : bs_state gs) :
  match bs_body max_iterations s with
  | Continue s' => bs_entered s' = S (bs_entered s)
  | Exit e => bs_entered (exit_state e) = S (bs_entered s)
  end.
Proof.
  unfold bs_body, bs_body_core. cbn [bs_enter bs_self
    bs_inductive_jtor bs_rescale_ind_Jtor_by_ftr bs_n bs_calls bs_entered].
  case_body; reflexivity.
Qed.

Lemma dy_body_entered (s : dy_state gs) :
  match dy_body max_iterations s with
  | Continue s' => dy_entered s' = S (dy_entered s)
  | Exit e => dy_entered (exit_state e) = S (dy_entered s)
  end.
Proof.
  unfold dy_body, dy_body_core. cbn [dy_enter dy_self
    dy_inductive_jtor dy_rescale_ind_Jtor_by_ftr dy_n dy_calls dy_entered
    dy_q_1_psi_location dy_q0_vals dy_q1_psi_surf].
  case_body; reflexivity.
Qed.

Lemma while_trace_counts {S : Type} (entered : S -> nat)
      (cond : S -> bool) (body : S -> step S) :
  (forall s, match body s with
             | Continue s' => entered s' = Datatypes.S (entered s)
             | Exit e => entered (exit_state e) = Datatypes.S (entered s)
             end) ->
  forall fuel s,
    entered (exit_state (while_loop cond body fuel s))
    = (entered s + length (while_trace cond body fuel s))%nat.
Proof.
  intros Hbody. induction fuel as [|fuel IH]; intros s;
    cbn [while_loop while_trace].
  - destruct (cond s); cbn; lia.
  - destruct (cond s); [|cbn; lia].
    specialize (Hbody s). destruct (body s) as [s'|e].
    + rewrite IH, Hbody. cbn [length]. lia.
    + rewrite Hbody. cbn [length]. lia.
Qed.

(** X19. Rescaling by the trapped fraction is requested at most once:
    in both loops every iteration after the first is entered with
    [rescale_ind_Jtor_by_ftr = False].  (The trace lists the states in
    which the body is entered; its length is the number of entries the
    loop counts.) *)
Theorem rescale_requested_once
        (fuel : nat) (self : gs) (jtor : ndarray) (q1 : option float64)
        (rescale : bool) (q0s : list float64) (q1s : list (option float64)) :
  (Forall (fun s => bs_rescale_ind_Jtor_by_ftr s = false)
     (tl (while_trace (bs_cond max_iterations) (bs_body max_iterations) fuel
            (bs_init self jtor rescale)))
   /\ length (while_trace (bs_cond max_iterations) (bs_body max_iterations)
                fuel (bs_init self jtor rescale))
      = bs_entered (exit_state
          (solve_with_bootstrap_loop max_iterations fuel self jtor rescale)))
  /\ (Forall (fun s => dy_rescale_ind_Jtor_by_ftr s = false)
        (tl (while_trace (dy_cond max_iterations) (dy_body max_iterations) fuel
               (dy_init self jtor q1 rescale q0s q1s)))
      /\ length (while_trace (dy_cond max_iterations)
                   (dy_body max_iterations) fuel
                   (dy_init self jtor q1 rescale q0s q1s))
         = dy_entered (exit_state
             (basic_dynamo_w_bootstrap_loop max_iterations fuel self jtor q1
                                            rescale q0s q1s))).
Proof.
  split; split.
  - apply while_trace_tail. apply bs_body_rescale.
  - unfold solve_with_bootstrap_loop.
    rewrite (while_trace_counts (@bs_entered gs) _ _ bs_body_entered).
    reflexivity.
  - apply while_trace_tail. apply dy_body_rescale.
  - unfold basic_dynamo_w_bootstrap_loop.
    rewrite (while_trace_counts (@dy_entered gs) _ _ dy_body_entered).
    reflexivity.
Qed.

End DriverInvariants.

Section InitialSolve.

Context {gs : Type} {tokamaker : TokaMaker gs}.

Variable max_iterations : Z.
Variable init_profile_iteration : gs -> ndarray -> bool -> result iteration.


End InitialSolve.

Lemma dynamo_loop_bounded_witness :
  Z.le (Z.of_nat (dy_entered (exit_state
          (@basic_dynamo_w_bootstrap_loop nat
             (Scripted.tokamaker (of_Q [1; 2; 3]) 0 (Fin 3))
             2 10 0%nat (of_Q [1; 1; 1]) (Some (Fin (1 # 5))) true [] []))))
       (2 + 1).
Proof.
  apply (@dynamo_loop_bounded nat
           (Scripted.tokamaker (of_Q [1; 2; 3]) 0 (Fin 3))
           2 10 0%nat (of_Q [1; 1; 1]) (Some (Fin (1 # 5))) true [] []); lia.
Defined.

Lemma bootstrap_solve_failure_returns_witness :
  exists s',
    while_loop (bs_cond 3)
      (@bs_body nat (Scripted.tokamaker (of_Q [1; 1; 1]) (-3) (Fin 3)) 3)
      1 (@bs_init nat 0%nat (of_Q [1; 1; 1]) false)
    = SolveFailed s'
    /\ bs_flag s' = (-3)%Z /\ bs_self s' = 1%nat
    /\ bs_entered s' = 1%nat
    /\ bs_calls s'
       = [] ++ [(Scripted.the_prof (of_Q [1; 1; 0]),
                 Scripted.the_prof (of_Q [1; 1; 0]))].
Proof.
  refine (@bootstrap_solve_failure_returns nat
            (Scripted.tokamaker (of_Q [1; 1; 1]) (-3) (Fin 3)) 3
            (@bs_init nat 0%nat (of_Q [1; 1; 1]) false)
            (Scripted.the_iteration (of_Q [1; 1; 1]) (of_Q [1; 1; 1]))
            (of_Q [1; 1; 0]) (of_Q [1; 1; 0]) 1%nat (-3)%Z 0%nat
            _ _ _ _ _ _); try reflexivity.
  cbn. lia.
Defined.


Lemma loops_skipped_when_negative_witness :
  exists s,
    @solve_with_bootstrap_loop nat
      (Scripted.tokamaker (of_Q [1; 1; 1]) 0 (Fin 3))
      (-1) 5 0%nat (of_Q [1; 1; 1]) true
    = Exhausted s
    /\ bs_flag s = (-1)%Z /\ bs_calls s = [] /\ bs_self s = 0%nat
    /\ bs_entered s = 0%nat.
Proof.
  refine (proj1 (@loops_skipped_when_negative nat
            (Scripted.tokamaker (of_Q [1; 1; 1]) 0 (Fin 3))
            (-1) 5 0%nat (of_Q [1; 1; 1]) None true [] [] _)).
  lia.
Defined.

(** * Further properties: decoding, trimming, sampling grids *)

(** X21. [error_reason] has a message of its own for each of the flags
    [-1] to [-8] and answers 'Unkown reason' for every other flag, the
    non-negative ones of a successful solve included. *)
Theorem error_reason_decodes :
  (forall flag : Z,
      error_reason flag = "Unkown reason"%string
      <-> ~ (-8 <= flag <= -1)%Z)
  /\ (forall f g : Z,
         (-8 <= f <= -1)%Z -> (-8 <= g <= -1)%Z ->
         error_reason f = error_reason g -> f = g).
Proof.
  assert (Hcases : forall f, (-8 <= f <= -1)%Z ->
            f = (-1)%Z \/ f = (-2)%Z \/ f = (-3)%Z \/ f = (-4)%Z
            \/ f = (-5)%Z \/ f = (-6)%Z \/ f = (-7)%Z \/ f = (-8)%Z)
    by (intros; lia).
  split.
  - intros flag. split.
    + intros H Hin. apply Hcases in Hin.
      repeat (destruct Hin as [-> | Hin]; [vm_compute in H; discriminate H|]).
      subst. vm_compute in H. discriminate H.
    + intros Hout. unfold error_reason.
      repeat match goal with
             | |- context [(flag =? ?k)%Z] =>
                 destruct (Z.eqb_spec flag k); [lia|]
             end.
      reflexivity.
  - intros f g Hf Hg.
    apply Hcases in Hf. apply Hcases in Hg.
    repeat (destruct Hf as [-> | Hf]);
      repeat (destruct Hg as [-> | Hg]); subst;
      intros H; try reflexivity; vm_compute in H; discriminate H.
Qed.

Lemma skipn_all_but_last {A : Type} (l : list A) (d : A) :
  l <> [] -> skipn (length l - 1) l = [last l d].
Proof.
  induction l as [|x t IH]; [congruence|]. intros _.
  destruct t as [|y t']; [reflexivity|].
  cbn [length]. replace (S (S (length t')) - 1)%nat with (S (length t')) by lia.
  cbn [skipn]. specialize (IH ltac:(discriminate)).
  cbn [length] in IH. replace (S (length t') - 1)%nat with (length t') in IH by lia.
  rewrite IH. f_equal.
Qed.

(** X22. Removing the pedestal keeps the first half of the samples and
    the last one: a list as long as the grid, of [n >= 1] samples, is
    cut down to its first [n / 2] samples followed by its last sample,
    [n / 2 + 1] in all; the empty list stays empty. *)
Theorem trimmed_keeps_core_and_edge (x l : list Q) :
  length l = length x ->
  (l = [] -> trimmed x l = [])
  /\ (l <> [] ->
      trimmed x l = firstn (length l / 2) l ++ [last l 0]
      /\ length (trimmed x l) = (length l / 2 + 1)%nat).
Proof.
  intros Hlen. split.
  - intros ->. unfold trimmed, del_slice.
    rewrite firstn_nil, skipn_nil. reflexivity.
  - intros Hne.
    assert (Hn : (1 <= length l)%nat) by (destruct l; [congruence | cbn; lia]).
    assert (Hhalf : (length l / 2 <= length l - 1)%nat).
    { pose proof (Nat.Div0.div_le_upper_bound (length l) 2 (length l - 1)).
      destruct (length l) as [|[|n]]; [lia | reflexivity |].
      apply Nat.Div0.div_le_upper_bound. lia. }
    assert (E : trimmed x l = firstn (length l / 2) l ++ [last l 0]).
    { unfold trimmed, del_slice, mid_index, end_index, slice_bound.
      rewrite <- Hlen.
      destruct (Z.ltb_spec (Z.of_nat (length l) / 2) 0) as [Hm|Hm];
        [pose proof (Z.div_pos (Z.of_nat (length l)) 2); lia|].
      destruct (Z.ltb_spec (Z.of_nat (length l) - 1) 0); [lia|].
      assert (Hz : Z.to_nat (Z.of_nat (length l) / 2) = (length l / 2)%nat).
      { rewrite <- (Nat2Z.id (length l / 2)). f_equal.
        rewrite Nat2Z.inj_div. reflexivity. }
      rewrite Hz.
      replace (Z.to_nat (Z.of_nat (length l) - 1)) with (length l - 1)%nat by lia.
      rewrite !Nat.min_l by lia. rewrite Nat.max_r by exact Hhalf.
      rewrite (skipn_all_but_last l 0 Hne). reflexivity. }
    split; [exact E|].
    rewrite E, length_app, length_firstn. cbn [length].
    rewrite Nat.min_l by lia. reflexivity.
Qed.

Lemma trimmed_keeps_core_and_edge_witness :
  ([1; 2; 3; 4; 5; 6; 7] = [] ->
   trimmed [0; 1; 2; 3; 4; 5; 6] [1; 2; 3; 4; 5; 6; 7] = [])
  /\ ([1; 2; 3; 4; 5; 6; 7] <> [] ->
      trimmed [0; 1; 2; 3; 4; 5; 6] [1; 2; 3; 4; 5; 6; 7]
      = firstn (length [1; 2; 3; 4; 5; 6; 7] / 2) [1; 2; 3; 4; 5; 6; 7]
        ++ [last [1; 2; 3; 4; 5; 6; 7] 0]
      /\ length (trimmed [0; 1; 2; 3; 4; 5; 6] [1; 2; 3; 4; 5; 6; 7])
         = Nat.add (length [1; 2; 3; 4; 5; 6; 7] / 2) 1).
Proof.
  apply (trimmed_keeps_core_and_edge [0; 1; 2; 3; 4; 5; 6]
           [1; 2; 3; 4; 5; 6; 7]).
  reflexivity.
Defined.

(** Seven samples: the first three and the last survive. *)
Example trimmed_seven :
  trimmed [0; 1; 2; 3; 4; 5; 6] [10; 11; 12; 13; 14; 15; 16]
  = [10; 11; 12; 16].
Proof. reflexivity. Qed.

(** ** Uniform sampling grids *)









(** With a single sample the two conventions disagree: convention 0
    returns [1 - psi_pad], the others [psi_pad]. *)
Remark single_sample_depends_on_convention (psi_pad : Q) :
  snd (sample_points 0 None psi_pad 1) = [Fin (1 - psi_pad)]
  /\ snd (sample_points 1 None psi_pad 1) = [Fin psi_pad].
Proof. split; reflexivity. Qed.

(** Explicit sampling points come back untouched under every
    convention, and under convention 0 the solver library is handed
    their complement [1 - psi], in the caller's order (no flip, unlike
    the uniform grid): whatever order the caller chose is the order of
    the returned profile. *)
Remark explicit_points_returned (psi_convention : Z) (psi : ndarray)
        (psi_pad : Q) (npsi : nat) :
  snd (sample_points psi_convention (Some psi) psi_pad npsi) = psi
  /\ length (fst (sample_points psi_convention (Some psi) psi_pad npsi))
     = length psi
  /\ (forall (i : nat) (q : Q),
         nth_error psi i = Some (Fin q) ->
         nth_error (fst (sample_points psi_convention (Some psi) psi_pad npsi)) i
         = Some (Fin (if (psi_convention =? 0)%Z then 1 - q else q))).
Proof.
  unfold sample_points.
  destruct (Z.eqb_spec psi_convention 0) as [E|E]; cbn [fst snd].
  - repeat split.
    + apply length_map.
    + intros i q H. rewrite nth_error_map, H. reflexivity.
  - repeat split. intros i q H. exact H.
Qed.

(** * Profile files: [create_prof_file], [set_profiles] *)

Section ProfileFiles.

Import ProfFile.

Lemma lift_not_key {A : Type} (m : result A) : lift m <> Raised KeyError.
Proof. destruct m; discriminate. Qed.

(** X24. [KeyError] is decided by the dictionary's keys alone: it is
    raised exactly when ['type'] is missing, or is neither 'flat' nor
    'linterp', or is 'linterp' with ['x'] or ['y'] missing (or [None]);
    neither the flux convention nor any sample can cause it. *)
Theorem key_error_from_keys_only (convention : Z) (d : profile_dict) :
  prof_file_lines convention d = Raised KeyError
  <-> (d_type d = None
       \/ (exists t, d_type d = Some t
                     /\ t <> "flat"%string /\ t <> "linterp"%string)
       \/ (d_type d = Some "linterp"%string
           /\ (d_x d = None \/ d_y d = None))).
Proof.
  unfold prof_file_lines. destruct d as [ty x y]. cbn [d_type d_x d_y].
  destruct ty as [t|].
  2:{ split; [intros _; left; reflexivity | reflexivity]. }
  destruct (String.eqb_spec t "flat") as [->|Hflat].
  { split; [discriminate|].
    intros [H|[[t [H [H1 H2]]]|[H _]]]; [discriminate | | discriminate].
    injection H as <-. congruence. }
  destruct (String.eqb_spec t "linterp") as [->|Hlin].
  - destruct x as [x|].
    2:{ split; [|reflexivity]. intros _. right. right. split; auto. }
    destruct y as [y|].
    2:{ split; [|reflexivity]. intros _. right. right. split; auto. }
    split.
    + intros H. exfalso. exact (lift_not_key _ H).
    + intros [H|[[t [H [H1 H2]]]|[_ [H|H]]]]; try discriminate.
      injection H as <-. congruence.
  - split; [|reflexivity]. intros _. right. left. exists t. auto.
Qed.

Lemma fold_min_diff (t : list Q) : forall b m0 : Q,
  exists m : Q,
    fold_left (fun m v => if np_less v m then v else m)
              (diff (of_Q (b :: t))) (Fin m0) = Fin m
    /\ Qltb m 0 = Qltb m0 0 || negb (ascending (b :: t)).
Proof.
  induction t as [|c t IH]; intros b m0.
  - exists m0. split; [reflexivity|]. cbn. rewrite orb_false_r. reflexivity.
  - change (diff (of_Q (b :: c :: t)))
      with (Fin (c - b) :: diff (of_Q (c :: t))).
    cbn [fold_left]. rewrite np_less_Fin.
    destruct (Qltb_spec (c - b) m0) as [Hlt|Hge].
    + destruct (IH c (c - b)) as [m [E Hm]]. exists m. split; [exact E|].
      rewrite Hm. change (ascending (b :: c :: t))
        with (Qle_bool b c && ascending (c :: t)).
      destruct (Qltb_spec (c - b) 0) as [H1|H1].
      * assert (Hbc : Qle_bool b c = false).
        { destruct (Qle_bool b c) eqn:E'; [|reflexivity].
          apply Qle_bool_iff in E'. exfalso. clear - H1 E'. lra. }
        rewrite Hbc. cbn. rewrite orb_true_r. reflexivity.
      * assert (Hbc : Qle_bool b c = true)
          by (apply Qle_bool_iff; clear - H1; lra).
        rewrite Hbc. rewrite (Qltb_false m0 0) by (clear - H1 Hlt; lra).
        reflexivity.
    + destruct (IH c m0) as [m [E Hm]]. exists m. split; [exact E|].
      rewrite Hm. change (ascending (b :: c :: t))
        with (Qle_bool b c && ascending (c :: t)).
      destruct (Qltb_spec m0 0) as [H0|H0]; [reflexivity|].
      assert (Hbc : Qle_bool b c = true)
        by (apply Qle_bool_iff; clear - H0 Hge; lra).
      rewrite Hbc. reflexivity.
Qed.

Lemma min_diff_ascending (a b : Q) (t : list Q) :
  exists m : Q,
    np_min (diff (of_Q (a :: b :: t))) = Ret (Fin m)
    /\ Qltb m 0 = negb (ascending (a :: b :: t)).
Proof.
  change (diff (of_Q (a :: b :: t)))
    with (Fin (b - a) :: diff (of_Q (b :: t))).
  destruct (fold_min_diff t b (b - a)) as [m [E Hm]].
  exists m. split; [cbn [np_min]; rewrite E; reflexivity|].
  rewrite Hm. change (ascending (a :: b :: t))
    with (Qle_bool a b && ascending (b :: t)).
  destruct (Qltb_spec (b - a) 0) as [H|H].
  - assert (Hab : Qle_bool a b = false).
    { destruct (Qle_bool a b) eqn:E'; [|reflexivity].
      apply Qle_bool_iff in E'. exfalso. clear - H E'. lra. }
    rewrite Hab. reflexivity.
  - assert (Hab : Qle_bool a b = true) by (apply Qle_bool_iff; clear - H; lra).
    rewrite Hab. reflexivity.
Qed.

(** X25. The checks on the knots of a 'linterp' profile, for finite
    knots and a convention other than 0: the file is written exactly
    when there are at least two knots, in non-decreasing order, within
    [0, 1], and ['y'] has a first sample and the convention is 1.  Fewer
    than two knots, a descending pair, a knot outside [0, 1] and an
    unknown convention raise [ValueError], an empty ['y'] raises
    [IndexError].  The lengths of ['x'] and ['y'] are not compared, and
    repeated knots are let through. *)
Theorem linterp_file_of_finite_knots (convention : Z) (xs : list Q)
        (y : ndarray) :
  convention <> 0%Z ->
  prof_file_lines convention
    {| d_type := Some "linterp"%string; d_x := Some (of_Q xs); d_y := Some y |}
  = if valid_knots xs && (convention =? 1)%Z then
      match y with
      | [] => Raised (Builtin IndexError)
      | y0 :: t =>
          Done (LinterpFile (Z.of_nat (length xs) - 1) y0 (tl (of_Q xs)) t)
      end
    else Raised (Builtin ValueError).
Proof.
  intros Hc. unfold prof_file_lines. cbn [d_type d_x d_y].
  change (String.eqb "linterp" "flat") with false.
  change (String.eqb "linterp" "linterp") with true. cbv iota.
  destruct xs as [|a [|b t]]; [reflexivity | reflexivity |].
  destruct (min_diff_ascending a b t) as [m [E Hm]].
  rewrite E. cbn [bind]. rewrite fltb_Fin, Hm.
  unfold valid_knots.
  change (2 <=? length (a :: b :: t))%nat with true. cbn [andb].
  destruct (ascending (a :: b :: t)); cbn [negb andb]; [|reflexivity].
  change (getitem (of_Q (a :: b :: t)) 0) with (Ret (Fin a)). cbn [bind hd].
  rewrite fltb_Fin. unfold Qltb at 1.
  destruct (Qle_bool 0 a); cbn [negb andb]; [|reflexivity].
  rewrite (getlast_of_Q (a :: b :: t) 0) by discriminate. cbn [bind].
  rewrite fgtb_Fin. unfold Qltb at 1.
  destruct (Qle_bool (last (a :: b :: t) 0) 1); cbn [negb andb];
    [|reflexivity].
  destruct (Z.eqb_spec convention 0) as [E0|_]; [contradiction|].
  destruct (convention =? 1)%Z; [|reflexivity].
  cbn [bind fst snd]. destruct y as [|y0 ty]; [reflexivity|].
  change (getitem (y0 :: ty) 0) with (Ret y0). cbn [bind lift tl].
  unfold of_Q. rewrite length_map. reflexivity.
Qed.

Lemma linterp_file_of_finite_knots_witness :
  prof_file_lines 1
    {| d_type := Some "linterp"%string;
       d_x := Some (of_Q [0; 1 # 2; 1 # 2; 1]);
       d_y := Some (of_Q [3; 2; 1; 0]) |}
  = if valid_knots [0; 1 # 2; 1 # 2; 1] && (1 =? 1)%Z then
      match of_Q [3; 2; 1; 0] with
      | [] => Raised (Builtin IndexError)
      | y0 :: t =>
          Done (LinterpFile (Z.of_nat (length [0; 1 # 2; 1 # 2; 1]) - 1) y0
                            (tl (of_Q [0; 1 # 2; 1 # 2; 1])) t)
      end
    else Raised (Builtin ValueError).
Proof.
  apply (linterp_file_of_finite_knots 1 [0; 1 # 2; 1 # 2; 1]
           (of_Q [3; 2; 1; 0])).
  discriminate.
Defined.

(** A single knot is refused: [numpy.min] has nothing to reduce. *)
Example single_knot_refused :
  prof_file_lines 1
    {| d_type := Some "linterp"%string;
       d_x := Some [Fin (1 # 2)]; d_y := Some [Fin 1] |}
  = Raised (Builtin ValueError).
Proof. reflexivity. Qed.

















(** Knots 0, 1/4, 1 with samples 5, 3, 0 are written as knots
    0, 3/4, 1 with samples 0, 3, 5. *)
Example flipped_file :
  prof_file_lines 0
    {| d_type := Some "linterp"%string;
       d_x := Some (of_Q [0; 1 # 4; 1]); d_y := Some (of_Q [5; 3; 0]) |}
  = Done (LinterpFile 2 (Fin 0) [Fin (1 + - (1 # 4)); Fin (1 + - 0)]
                      [Fin 3; Fin 5]).
Proof. reflexivity. Qed.

Lemma fold_min_nan_sticks (l : ndarray) :
  fold_left (fun m v => if np_less v m then v else m) l NaN = NaN.
Proof.
  induction l as [|v t IH]; [reflexivity|].
  cbn [fold_left]. replace (np_less v NaN) with false by (destruct v; reflexivity).
  exact IH.
Qed.

Lemma fold_min_nan (l : ndarray) : forall m : float64,
  In NaN l -> fold_left (fun m v => if np_less v m then v else m) l m = NaN.
Proof.
  induction l as [|v t IH]; intros m H; [contradiction|].
  cbn [fold_left]. destruct H as [->|H].
  - destruct m; cbn [np_less]; apply fold_min_nan_sticks.
  - apply IH. exact H.
Qed.

Lemma np_min_nan (l : ndarray) : In NaN l -> np_min l = Ret NaN.
Proof.
  destruct l as [|x t]; [contradiction|]. intros [->|H]; cbn [np_min].
  - rewrite fold_min_nan_sticks. reflexivity.
  - rewrite fold_min_nan by exact H. reflexivity.
Qed.

Lemma diff_has_nan (x : ndarray) :
  In NaN x -> (2 <= length x)%nat -> In NaN (diff x).
Proof.
  induction x as [|a t IH]; [contradiction|].
  destruct t as [|b t']; [cbn; lia|]. intros H _.
  change (diff (a :: b :: t')) with ((b - a)%f64 :: diff (b :: t')).
  destruct H as [->|[->|H]].
  - left. destruct b; reflexivity.
  - left. destruct a; reflexivity.
  - right. apply IH; [right; exact H|].
    destruct t'; [contradiction | cbn [length]; lia].
Qed.

(** X27. A not-a-number among the knots switches the ordering check
    off: [numpy.min(numpy.diff(x))] is then not-a-number, which is not
    below 0, so with two or more knots, a first knot not below 0 and a
    last one not above 1, the file is written (convention 1) whatever
    the order of the knots. *)
Theorem nan_knot_skips_order_check (x : ndarray) (y0 : float64)
        (t : ndarray) :
  In NaN x -> (2 <= length x)%nat ->
  (hd NaN x <? Fin 0)%f64 = false ->
  (last x NaN >? Fin 1)%f64 = false ->
  prof_file_lines 1
    {| d_type := Some "linterp"%string; d_x := Some x; d_y := Some (y0 :: t) |}
  = Done (LinterpFile (Z.of_nat (length x) - 1) y0 (tl x) t).
Proof.
  intros Hnan Hlen Hlo Hhi. unfold prof_file_lines. cbn [d_type d_x d_y].
  change (String.eqb "linterp" "flat") with false.
  change (String.eqb "linterp" "linterp") with true. cbv iota.
  rewrite (np_min_nan (diff x)) by (apply diff_has_nan; assumption).
  cbn [bind]. change (NaN <? Fin 0)%f64 with false. cbv iota.
  destruct x as [|a tx]; [cbn in Hlen; lia|].
  change (getitem (a :: tx) 0) with (Ret a). cbn [bind].
  cbn [hd] in Hlo. rewrite Hlo.
  cbn [getlast bind]. rewrite (last_cons_default tx a NaN) in Hhi.
  rewrite Hhi. reflexivity.
Qed.

Lemma nan_knot_skips_order_check_witness :
  prof_file_lines 1
    {| d_type := Some "linterp"%string;
       d_x := Some [Fin (9 # 10); NaN; Fin (1 # 10)];
       d_y := Some (Fin 1 :: [Fin 2; Fin 3]) |}
  = Done (LinterpFile (Z.of_nat (length [Fin (9 # 10); NaN; Fin (1 # 10)]) - 1)
                      (Fin 1) (tl [Fin (9 # 10); NaN; Fin (1 # 10)])
                      [Fin 2; Fin 3]).
Proof.
  apply (nan_knot_skips_order_check [Fin (9 # 10); NaN; Fin (1 # 10)]
           (Fin 1) [Fin 2; Fin 3]).
  - right. left. reflexivity.
  - cbn [length]. lia.
  - reflexivity.
  - reflexivity.
Defined.

(** The same knots without the not-a-number are refused. *)
Example descending_knots_refused :
  prof_file_lines 1
    {| d_type := Some "linterp"%string;
       d_x := Some [Fin (9 # 10); Fin (1 # 2); Fin (1 # 10)];
       d_y := Some [Fin 1; Fin 2; Fin 3] |}
  = Raised (Builtin ValueError).
Proof. reflexivity. Qed.

Lemma create_prof_file_fields (self : solver) (filename : string)
      (d : profile_dict) :
  psi_convention (fst (create_prof_file self filename d)) = psi_convention self
  /\ F0 (fst (create_prof_file self filename d)) = F0 self
  /\ loaded (fst (create_prof_file self filename d)) = loaded self.
Proof.
  unfold create_prof_file.
  destruct (prof_file_lines (psi_convention self) d); repeat split.
Qed.

Lemma optional_file_cases (self : solver) (filename : string)
      (prof : option profile_dict) :
  psi_convention (fst (optional_file self filename prof)) = psi_convention self
  /\ F0 (fst (optional_file self filename prof)) = F0 self
  /\ loaded (fst (optional_file self filename prof)) = loaded self
  /\ ((snd (optional_file self filename prof)
        = Done (match prof with Some _ => filename | None => "none"%string end)
        /\ exists new, files (fst (optional_file self filename prof))
                       = files self ++ new)
       \/ (exists r, snd (optional_file self filename prof) = Raised r)
           /\ fst (optional_file self filename prof) = self).
Proof.
  unfold optional_file, create_prof_file. destruct prof as [d|].
  - destruct (prof_file_lines (psi_convention self) d) as [f|r];
      cbn [fst snd with_file psi_convention F0 loaded files].
    + repeat split. left. split; [reflexivity|]. eexists. reflexivity.
    + repeat split. right. split; [eexists|]; reflexivity.
  - cbn [fst snd]. repeat split. left. split; [reflexivity|].
    exists []. rewrite app_nil_r. reflexivity.
Qed.

(** X28. [set_profiles] reaches the solver library only when every
    profile given was written: on an exception nothing is loaded and
    [_F0] keeps its value even if [foffset] was given; on success there
    is exactly one load, with [_F0] set from [foffset] when given, with
    'none' for each profile left out and always for the resistivity
    file.  Files are only ever added and the convention is not
    touched. *)
Theorem set_profiles_effects (self : solver)
        (ffp_prof : option profile_dict) (foffset : option float64)
        (pp_prof ffp_NI_prof : option profile_dict) :
  psi_convention (fst (set_profiles self ffp_prof foffset pp_prof ffp_NI_prof))
  = psi_convention self
  /\ (exists new,
         files (fst (set_profiles self ffp_prof foffset pp_prof ffp_NI_prof))
         = files self ++ new)
  /\ match snd (set_profiles self ffp_prof foffset pp_prof ffp_NI_prof) with
     | Done _ =>
         F0 (fst (set_profiles self ffp_prof foffset pp_prof ffp_NI_prof))
         = match foffset with Some v => v | None => F0 self end
         /\ loaded (fst (set_profiles self ffp_prof foffset pp_prof ffp_NI_prof))
            = loaded self
              ++ [(match ffp_prof with
                   | Some _ => "tokamaker_f.prof" | None => "none" end,
                   match foffset with Some v => v | None => F0 self end,
                   match pp_prof with
                   | Some _ => "tokamaker_p.prof" | None => "none" end,
                   "none",
                   match ffp_NI_prof with
                   | Some _ => "tokamaker_ffp_NI.prof" | None => "none" end)%string]
     | Raised _ =>
         F0 (fst (set_profiles self ffp_prof foffset pp_prof ffp_NI_prof))
         = F0 self
         /\ loaded (fst (set_profiles self ffp_prof foffset pp_prof ffp_NI_prof))
            = loaded self
     end.
Proof.
  unfold set_profiles.
  destruct (optional_file_cases self "tokamaker_f.prof" ffp_prof)
    as [Hc1 [HF1 [Hl1 H1]]].
  destruct (optional_file self "tokamaker_f.prof" ffp_prof) as [s1 r1].
  cbn [fst snd] in *.
  destruct H1 as [[-> [new1 Hn1]] | [[r ->] ->]].
  2:{ cbn [fst snd]. repeat split. exists []. now rewrite app_nil_r. }
  destruct (optional_file_cases s1 "tokamaker_p.prof" pp_prof)
    as [Hc2 [HF2 [Hl2 H2]]].
  destruct (optional_file s1 "tokamaker_p.prof" pp_prof) as [s2 r2].
  cbn [fst snd] in *.
  destruct H2 as [[-> [new2 Hn2]] | [[r ->] ->]].
  2:{ cbn [fst snd]. repeat split; try assumption. exists new1. exact Hn1. }
  destruct (optional_file_cases s2 "tokamaker_ffp_NI.prof" ffp_NI_prof)
    as [Hc3 [HF3 [Hl3 H3]]].
  destruct (optional_file s2 "tokamaker_ffp_NI.prof" ffp_NI_prof) as [s3 r3].
  cbn [fst snd] in *.
  destruct H3 as [[-> [new3 Hn3]] | [[r ->] ->]].
  2:{ cbn [fst snd]. repeat split; try congruence.
      exists (new1 ++ new2). rewrite Hn2, Hn1, app_assoc. reflexivity. }
  cbn [fst snd]. unfold load_profiles, with_F0.
  destruct foffset as [v|];
    cbn [psi_convention F0 files loaded]; repeat split; try congruence;
    exists (new1 ++ new2 ++ new3);
    rewrite Hn3, Hn2, Hn1, !app_assoc; reflexivity.
Qed.

(** [set_profiles] is not all-or-nothing: when the F*F' profile is
    accepted and the P' profile is refused, 'tokamaker_f.prof' has been
    written by the time the exception leaves, the third profile is not
    looked at, and the solver library still holds the old profiles. *)
Remark set_profiles_partial_write (self : solver)
        (ffp_prof pp_prof : profile_dict) (foffset : option float64)
        (ffp_NI_prof : option profile_dict) (f : file_lines) (r : raised) :
  prof_file_lines (psi_convention self) ffp_prof = Done f ->
  prof_file_lines (psi_convention self) pp_prof = Raised r ->
  set_profiles self (Some ffp_prof) foffset (Some pp_prof) ffp_NI_prof
  = ({| psi_convention := psi_convention self;
        F0 := F0 self;
        files := files self ++ [("tokamaker_f.prof"%string, f)];
        loaded := loaded self |},
     Raised r).
Proof.
  intros Hf Hp. unfold set_profiles, optional_file, create_prof_file.
  rewrite Hf. cbn [with_file psi_convention]. rewrite Hp. reflexivity.
Qed.

Example set_profiles_partial_write_run :
  set_profiles {| psi_convention := 1; F0 := Fin 1; files := []; loaded := [] |}
    (Some {| d_type := Some "flat"%string; d_x := None; d_y := None |})
    (Some (Fin 2))
    (Some {| d_type := Some "linterp"%string;
             d_x := Some [Fin (1 # 2)]; d_y := Some [Fin 1] |})
    None
  = ({| psi_convention := 1;
        F0 := Fin 1;
        files := [] ++ [("tokamaker_f.prof"%string, FlatFile)];
        loaded := [] |},
     Raised (Builtin ValueError)).
Proof.
  apply (set_profiles_partial_write
           {| psi_convention := 1; F0 := Fin 1; files := []; loaded := [] |}
           {| d_type := Some "flat"%string; d_x := None; d_y := None |}
           {| d_type := Some "linterp"%string;
              d_x := Some [Fin (1 # 2)]; d_y := Some [Fin 1] |}
           (Some (Fin 2)) None FlatFile (Builtin ValueError));
    reflexivity.
Defined.

End ProfileFiles.

(** * Smoothing: [make_smooth] *)

Section SmoothingFacts.

Context {evaluation : Evaluation}.


(** X29. A pre-pedestal grid of a single point cannot be laid out:
    with [preped_grid=1] the first sampling point is [0/(1-1)], and
    [make_smooth] raises [ZeroDivisionError] whenever its input passes
    the spline fit, whatever the other arguments. *)
Theorem make_smooth_single_point_grid (psi_norm input_vec : ndarray)
        (input_spln : spline) (ped_spot pedsepl pedsepr endsep : Q)
        (npts : Z) (endzero : bool) :
  CubicSpline psi_norm input_vec = Ret input_spln ->
  make_smooth psi_norm input_vec ped_spot 1 pedsepl pedsepr endsep npts endzero
  = Raise ZeroDivisionError.
Proof.
  intros H. unfold make_smooth. rewrite H. reflexivity.
Qed.












End SmoothingFacts.

Lemma make_smooth_single_point_grid_witness :
  @make_smooth Polyline.evaluation (of_Q [0; 1 # 2; 1]) (of_Q [4; 3; 0])
               default_ped_spot 1 default_pedsepl default_pedsepr
               default_endsep 200 true
  = Raise ZeroDivisionError.
Proof.
  apply (@make_smooth_single_point_grid Polyline.evaluation
           (of_Q [0; 1 # 2; 1]) (of_Q [4; 3; 0])
           {| knots := of_Q [0; 1 # 2; 1]; values := of_Q [4; 3; 0] |}).
  reflexivity.
Defined.

